(** * MISGan/image_misgan_impute.py: the launcher script, embedded and verified

    The script is glue: it builds an [argparse] parser, parses the command
    line, optionally reloads the arguments of a stored checkpoint, validates
    two string options, builds a run name and an output directory, and then
    constructs a dataset and six networks that it hands to [misgan_impute].

    The embedding is a shallow one.  Python values are a small inductive type,
    the [argparse.Namespace] is a finite map from attribute names to values,
    and [main] is written in an exception-and-trace monad: every call that
    leaves the file (argparse, print, torch, pathlib constructors, the
    collaborator classes, [misgan_impute]) appends an event to the trace, and
    every [raise], failed [assert] and failed name lookup ends the run with an
    exception.  What the outside world answers (the parsed command line, the
    clock, the checkpoint files, the number of GPUs) is read from a [World]. *)

From Stdlib Require Import ZArith Ascii String List.
From Stdlib Require Import Floats.PrimFloat.
From stdpp Require Import base option gmap strings pretty list.

Set Warnings "-inexact-float".
Local Open Scope Z_scope.

(** ** Python values *)

(** A [pathlib.Path] (on a POSIX system) is kept as a term: [PathOf s] is
    [Path(s)], and [PathDiv p s] is the path of the relative segment [s]
    under [p].  The script never inspects a path, it only builds, prints and
    passes them on. *)
Inductive pypath :=
| PathOf (s : string)
| PathDiv (p : pypath) (s : string).

(** A segment that starts at the root. *)
Definition is_absolute (s : string) : bool :=
  match s with
  | String "/"%char _ => true
  | _ => false
  end.

(** [p / s]: pathlib drops everything to the left of an absolute segment. *)
Definition path_div (p : pypath) (s : string) : pypath :=
  if is_absolute s then PathOf s else PathDiv p s.

Inductive pyval :=
| VNone
| VBool (b : bool)
| VInt (z : Z)
| VFloat (f : float)
| VStr (s : string)
| VPair (a b : pyval)
| VPath (p : pypath)
| VObj (o : nat).

(** [argparse.Namespace], and [vars(ns)]: attribute name to value. *)
Abbreviation Namespace := (gmap string pyval).

(** The object [torch.load] returns: a dict whose ['args'] entry, when
    present, is the namespace saved with the checkpoint.  The other entries
    (network and optimiser state) are opaque here. *)
Record Checkpoint := {
  ckpt_args : option Namespace;
  ckpt_rest : nat
}.

(** Python's [bool(v)], as used by [if v:] and [not v]. *)
Definition truthy (v : pyval) : bool :=
  match v with
  | VNone => false
  | VBool b => b
  | VInt z => negb (z =? 0)
  | VFloat f => negb (PrimFloat.eqb f 0%float)
  | VStr s => negb (String.eqb s "")
  | VPair _ _ => true
  | VPath _ => true
  | VObj _ => true
  end.

(** [v == 'literal'] for a string literal. *)
Definition eq_str (v : pyval) (s : string) : bool :=
  match v with
  | VStr t => String.eqb t s
  | _ => false
  end.

(** [v == 0]. Booleans are integers in Python and floats compare by value. *)
Definition eq_zero (v : pyval) : bool :=
  match v with
  | VBool b => negb b
  | VInt z => z =? 0
  | VFloat f => PrimFloat.eqb f 0%float
  | _ => false
  end.

(** [v is None]. *)
Definition is_none (v : pyval) : bool :=
  match v with
  | VNone => true
  | _ => false
  end.

(** The two formatting builtins the script relies on are parameters of the
    development: [format(v, 'g')], which fails on values that are not
    numbers, and [str(v)] for the values whose text is not fixed below. *)
Class PyFormat := {
  format_g : pyval → option string;
  str_other : pyval → string
}.

(** [str(v)], which is what ['{}'.format(v)] and [f'{v}'] insert. *)
Definition py_str `{PyFormat} (v : pyval) : string :=
  match v with
  | VStr s => s
  | VInt z => pretty z
  | VBool true => "True"
  | VBool false => "False"
  | VNone => "None"
  | _ => str_other v
  end.

(** ** Exceptions, events and the monad of [main] *)

Inductive exn :=
| SystemExit (code : Z)
| NameError (name : string)
| UnboundLocalError (name : string)
| AttributeError (name : string)
| KeyError (key : string)
| TypeError
| ValueError
| OverflowError
| AssertionError
| NotImplementedError
| LoadError
| TrainingError.

Inductive argkind := StoreStr | StoreInt | StoreFloat | StoreTrue.

(** One registered option: what [add_argument] stores. *)
Record Action := {
  dest : string;
  kind : argkind;
  default : pyval
}.

Inductive event :=
| EvArgumentParser
| EvAddArgument (flag : string) (a : Action)
| EvParseArgs
| EvPrint (v : pyval)
| EvTorchLoad (p : pypath)
| EvNow
| EvDeviceCount
| EvNew (cls : string) (kwargs : list (string * pyval)) (o : nat)
| EvDataParallel (model : pyval) (o : nat)
| EvTo (model : pyval) (dev : string)
| EvMisganImpute (args : Namespace)
    (data_gen mask_gen imputer data_critic mask_critic impu_critic : pyval)
    (data output_dir : pyval) (ckpt : option Checkpoint).

Inductive result (A : Type) :=
| Ok (a : A)
| Raise (e : exn).
Arguments Ok {A} a.
Arguments Raise {A} e.

(** A run from object counter [n] yields the events it produced, the new
    counter and either a value or the exception that ended it. *)
Record Out (A : Type) := MkOut {
  events : list event;
  fresh : nat;
  res : result A
}.
Arguments MkOut {A} events fresh res.
Arguments events {A} o.
Arguments fresh {A} o.
Arguments res {A} o.

Definition M (A : Type) : Type := nat → Out A.

Definition ret {A} (a : A) : M A := λ n, MkOut [] n (Ok a).

Definition raise {A} (e : exn) : M A := λ n, MkOut [] n (Raise e).

Definition bind {A B} (m : M A) (k : A → M B) : M B := λ n,
  match m n with
  | MkOut evs n' (Ok a) =>
      match k a n' with
      | MkOut evs' n'' r => MkOut (evs ++ evs') n'' r
      end
  | MkOut evs n' (Raise e) => MkOut evs n' (Raise e)
  end.

Definition emit (e : event) : M unit := λ n, MkOut [e] n (Ok tt).

(** A fresh object identity, announced by the event built from it. *)
Definition alloc (mk : nat → event) : M pyval := λ n,
  MkOut [mk n] (S n) (Ok (VObj n)).

Declare Scope py_scope.
Delimit Scope py_scope with py.
Notation "x <- m ; k" := (bind m (fun x => k))
  (at level 20, m at level 100, k at level 200, only parsing) : py_scope.
Notation "' p <- m ; k" := (bind m (fun x => let 'p := x in k))
  (at level 20, p pattern, m at level 100, k at level 200, only parsing)
  : py_scope.
Notation "'run' m ; k" := (bind m (fun _ => k))
  (at level 20, m at level 100, k at level 200, only parsing) : py_scope.
Local Open Scope py_scope.

(** ** The module namespace *)

(** Names bound at module level when [main] runs: the imports of lines 1-13,
    the two assignments of lines 16-17 and the two [def]s. *)
Definition module_globals : list string :=
  [ "torch"; "nn"; "datetime"; "Path"; "argparse";
    "ConvDataGenerator"; "ConvMaskGenerator";
    "ConvCritic";
    "BlockMaskedImage"; "IndepMaskedImage";
    "UNetImputer";
    "misgan_impute";
    "use_cuda"; "device";
    "parallelize"; "main" ].

(** The builtins [main] refers to. *)
Definition builtins : list string :=
  [ "print"; "str"; "vars"; "setattr"; "NotImplementedError" ].

(** Looking a global name up: module namespace first, then builtins,
    otherwise [NameError]. *)
Definition global (name : string) : M unit :=
  if bool_decide (name ∈ module_globals) || bool_decide (name ∈ builtins)
  then ret tt
  else raise (NameError name).

(** ** argparse *)

Fixpoint lstrip_dash (s : string) : string :=
  match s with
  | String "-"%char s' => lstrip_dash s'
  | _ => s
  end.

Fixpoint dash_to_underscore (s : string) : string :=
  match s with
  | EmptyString => EmptyString
  | String c s' =>
      String (if Ascii.eqb c "-"%char then "_"%char else c) (dash_to_underscore s')
  end.

(** The attribute an option is stored under: ['--batch-size'] gives
    [batch_size]. *)
Definition dest_of_flag (flag : string) : string :=
  dash_to_underscore (lstrip_dash flag).

(** [parser.add_argument(flag, ...)]: the parser gains one action. *)
Definition add_argument (parser : list Action) (flag : string)
    (k : argkind) (d : pyval) : M (list Action) :=
  let a := {| dest := dest_of_flag flag; kind := k; default := d |} in
  run emit (EvAddArgument flag a);
  ret (parser ++ [a]).

(** A value argparse can have produced for an action. *)
Definition conforms (a : Action) (v : pyval) : bool :=
  match kind a, v with
  | StoreStr, VStr _ => true
  | StoreInt, VInt _ => true
  | StoreFloat, VFloat _ => true
  | StoreTrue, VBool true => true
  | _, _ => false
  end.

(** The options given are all registered and of the registered type;
    argparse exits with status 2 otherwise. *)
Definition accepts (parser : list Action) (given : Namespace) : bool :=
  forallb
    (λ kv, existsb (λ a, String.eqb (dest a) (fst kv) && conforms a (snd kv))
                   parser)
    (map_to_list given).

(** The namespace of an empty command line. *)
Definition defaults (parser : list Action) : Namespace :=
  list_to_map (map (λ a, (dest a, default a)) parser).

(** What the command line amounts to: argparse leaves with a status
    ([--help], a malformed option), or hands over the options that were
    given, already converted. *)
Inductive parse_outcome :=
| ParseExit (code : Z)
| ParseGiven (given : Namespace).

(** ** The outside world *)

Record World := {
  cli : parse_outcome;
  clock : string;
  files : pypath → option Checkpoint;
  use_cuda : bool;
  gpus : Z;
  training : option exn
}.

(** [device = torch.device('cuda' if use_cuda else 'cpu')] *)
Definition device (w : World) : string :=
  if use_cuda w then "cuda" else "cpu".

(** ** The script *)

(** The local variables of [main] that are live after line 117.  A local
    that may not have been assigned is an [option]. *)
Record Locals := {
  args : Namespace;
  checkpoint : option Checkpoint;
  output_dir : option pypath;
  mask : pyval;
  obs_prob : pyval;
  obs_prob_high : pyval;
  block_len : pyval;
  hard_sigmoid : pyval;
  mask_str : string;
  path : string
}.

(** The six networks of lines 129-135. *)
Record Nets := {
  data_gen : pyval;
  mask_gen : pyval;
  imputer : pyval;
  data_critic : pyval;
  mask_critic : pyval;
  impu_critic : pyval
}.

(** Lines 73-75, the loop
    [for key, arg in vars(checkpoint['args']).items():
         if key not in ['resume']: setattr(args, key, arg)]. *)
Definition apply_saved_args (saved args : Namespace) : Namespace :=
  map_fold
    (λ key arg acc,
       if bool_decide (key ∈ ["resume"]) then acc else <[key := arg]> acc)
    args saved.

Section Script.
Context `{PyFormat} (w : World).

(** [args.name] *)
Definition getattr (a : Namespace) (name : string) : M pyval :=
  match a !! name with
  | Some v => ret v
  | None => raise (AttributeError name)
  end.

(** [print(v)] *)
Definition print (v : pyval) : M unit :=
  run global "print";
  emit (EvPrint v).

(** [Path(v)]: a string or a path is accepted. *)
Definition Path (v : pyval) : M pypath :=
  run global "Path";
  match v with
  | VStr s => ret (PathOf s)
  | VPath p => ret p
  | _ => raise TypeError
  end.

(** A collaborator class called with keyword arguments; it answers with a
    new object. *)
Definition construct (cls : string) (kwargs : list (string * pyval))
    : M pyval :=
  run global cls;
  alloc (EvNew cls kwargs).

(** [model.to(device)], which returns [model]. *)
Definition to_device (model : pyval) : M pyval :=
  run global "device";
  run emit (EvTo model (device w));
  ret model.

(** Lines 20-21. *)
Definition parallelize (model : pyval) : M pyval :=
  run global "nn";
  wrapped <- alloc (EvDataParallel model);
  to_device wrapped.

(** Lines 25-62. *)
Definition build_parser : M (list Action) :=
  run global "argparse";
  run emit EvArgumentParser;
  parser <- ret [];
  parser <- add_argument parser "--resume" StoreStr VNone;
  parser <- add_argument parser "--data-dir" StoreStr (VStr "dataset");
  parser <- add_argument parser "--workers" StoreInt (VInt 0);
  parser <- add_argument parser "--epoch" StoreInt (VInt 1000);
  parser <- add_argument parser "--batch-size" StoreInt (VInt 2);
  parser <- add_argument parser "--pretrain" StoreStr VNone;
  parser <- add_argument parser "--imputeronly" StoreTrue (VBool false);
  parser <- add_argument parser "--plot-interval" StoreInt (VInt 50);
  parser <- add_argument parser "--save-interval" StoreInt (VInt 499);
  parser <- add_argument parser "--prefix" StoreStr (VStr "impute");
  parser <- add_argument parser "--mask" StoreStr (VStr "block");
  parser <- add_argument parser "--block-len" StoreInt (VInt 48);
  parser <- add_argument parser "--obs-prob" StoreFloat (VFloat 0.8);
  parser <- add_argument parser "--obs-prob-high" StoreFloat VNone;
  parser <- add_argument parser "--tau" StoreFloat (VFloat 0.5);
  parser <- add_argument parser "--alpha" StoreFloat (VFloat 0.1);
  parser <- add_argument parser "--beta" StoreFloat (VFloat 0.1);
  parser <- add_argument parser "--gamma" StoreFloat (VInt 0);
  parser <- add_argument parser "--maskgen" StoreStr (VStr "fusion");
  parser <- add_argument parser "--gp-lambda" StoreFloat (VInt 10);
  parser <- add_argument parser "--n-critic" StoreInt (VInt 5);
  parser <- add_argument parser "--n-latent" StoreInt (VInt 128);
  ret parser.

(** Line 64. *)
Definition parse_args (parser : list Action) : M Namespace :=
  run emit EvParseArgs;
  match cli w with
  | ParseExit code => raise (SystemExit code)
  | ParseGiven given =>
      if accepts parser given
      then ret (given ∪ defaults parser)
      else raise (SystemExit 2)
  end.

(** [torch.load(str(p), map_location='cpu')] *)
Definition torch_load (p : pypath) : M Checkpoint :=
  run global "torch";
  run global "str";
  run emit (EvTorchLoad p);
  match files w p with
  | Some c => ret c
  | None => raise LoadError
  end.

(** Lines 66-75.  Returns the arguments, [checkpoint] and [output_dir]. *)
Definition resume_block (a : Namespace)
    : M (Namespace * option Checkpoint * option pypath) :=
  resume <- getattr a "resume";
  if truthy resume then
    resume <- getattr a "resume";
    run print (VStr ("Resume: " +:+ py_str resume));
    resume <- getattr a "resume";
    output_dir <- Path resume;
    checkpoint <- torch_load (path_div (path_div output_dir "log")
                                       "checkpoint.pth");
    run global "vars";
    saved <- match ckpt_args checkpoint with
            | Some saved => ret saved
            | None => raise (KeyError "args")
            end;
    ret (apply_saved_args saved a, Some checkpoint, Some output_dir)
  else
    ret (a, None, None).

(** Lines 77-78. *)
Definition check_imputeronly (a : Namespace) : M unit :=
  imputeronly <- getattr a "imputeronly";
  if truthy imputeronly then
    pretrain <- getattr a "pretrain";
    if is_none pretrain then raise AssertionError else ret tt
  else
    ret tt.

(** Lines 25-78: everything up to the point where the options are read. *)
Definition setup : M (Namespace * option Checkpoint * option pypath) :=
  parser <- build_parser;
  a <- parse_args parser;
  r <- resume_block a;
  run check_imputeronly (fst (fst r));
  ret r.

(** Lines 87-94. *)
Definition choose_hard_sigmoid (a : Namespace) : M pyval :=
  maskgen <- getattr a "maskgen";
  if eq_str maskgen "sigmoid" then ret (VBool false)
  else
    maskgen <- getattr a "maskgen";
    if eq_str maskgen "hardsigmoid" then ret (VBool true)
    else
      maskgen <- getattr a "maskgen";
      if eq_str maskgen "fusion"
      then ret (VPair (VFloat (-0.1)) (VFloat 1.1))
      else run global "NotImplementedError"; raise NotImplementedError.

(** [f'{v:g}'].  A string has no such format code ([ValueError]); an
    integer is formatted as the float it converts to and is refused when it
    is too large for one ([OverflowError]); [None], a tuple, a path or a
    plain object has no such format at all ([TypeError]). *)
Definition fmt_g (v : pyval) : M string :=
  match format_g v with
  | Some s => ret s
  | None => raise (match v with
                   | VStr _ => ValueError
                   | VInt _ => OverflowError
                   | _ => TypeError
                   end)
  end.

(** Lines 96-104. *)
Definition choose_mask_str (mask obs_prob obs_prob_high block_len : pyval)
    : M string :=
  if eq_str mask "indep" then
    if is_none obs_prob_high then
      lo <- fmt_g obs_prob;
      ret ("indep_" +:+ lo)
    else
      lo <- fmt_g obs_prob;
      hi <- fmt_g obs_prob_high;
      ret ("indep_" +:+ lo +:+ "_" +:+ hi)
  else if eq_str mask "block" then
    ret ("block_" +:+
          (if truthy block_len then py_str block_len else "varsize"))
  else
    run global "NotImplementedError"; raise NotImplementedError.

(** [datetime.now().strftime('%m%d.%H%M%S')] *)
Definition now_stamp : M string :=
  run global "datetime";
  run emit EvNow;
  ret (clock w).

(** Lines 106-113. *)
Definition build_path (a : Namespace) (mask_str : string) : M string :=
  prefix <- getattr a "prefix";
  stamp <- now_stamp;
  tau <- getattr a "tau";
  tau <- fmt_g tau;
  maskgen <- getattr a "maskgen";
  alpha <- getattr a "alpha";
  alpha <- fmt_g alpha;
  beta <- getattr a "beta";
  beta <- fmt_g beta;
  gamma <- getattr a "gamma";
  gamma <- fmt_g gamma;
  ret (py_str prefix +:+ "_" +:+ stamp +:+ "_" +:+
        String.concat "_"
          [ "tau_" +:+ tau;
            "maskgen_" +:+ py_str maskgen;
            "coef_" +:+ alpha +:+ "_" +:+ beta +:+ "_" +:+ gamma;
            mask_str ]).

(** Lines 115-117. *)
Definition choose_output_dir (a : Namespace) (path : string)
    (output_dir : option pypath) : M (option pypath) :=
  resume <- getattr a "resume";
  if negb (truthy resume) then
    results <- Path (VStr "results");
    let output_dir := path_div (path_div results "celeba") path in
    run print (VPath output_dir);
    ret (Some output_dir)
  else
    ret output_dir.

(** Lines 25-117. *)
Definition prelude : M Locals :=
  '(a, checkpoint, output_dir) <- setup;
  mask <- getattr a "mask";
  obs_prob <- getattr a "obs_prob";
  obs_prob_high <- getattr a "obs_prob_high";
  block_len <- getattr a "block_len";
  block_len <- ret (if eq_zero block_len then VNone else block_len);
  hard_sigmoid <- choose_hard_sigmoid a;
  mask_str <- choose_mask_str mask obs_prob obs_prob_high block_len;
  path <- build_path a mask_str;
  output_dir <- choose_output_dir a path output_dir;
  ret {| args := a; checkpoint := checkpoint; output_dir := output_dir;
          mask := mask; obs_prob := obs_prob;
          obs_prob_high := obs_prob_high; block_len := block_len;
          hard_sigmoid := hard_sigmoid; mask_str := mask_str;
          path := path |}.

(** Lines 119-125.  With any other [mask] the local [data] stays
    unassigned. *)
Definition build_dataset (l : Locals) : M (option pyval) :=
  if eq_str (mask l) "indep" then
    run global "IndepMaskedCelebA";
    data_dir <- getattr (args l) "data_dir";
    data <- alloc (EvNew "IndepMaskedCelebA"
                    [ ("data_dir", data_dir);
                      ("obs_prob", obs_prob l);
                      ("obs_prob_high", obs_prob_high l) ]);
    ret (Some data)
  else if eq_str (mask l) "block" then
    run global "BlockMaskedCelebA";
    data_dir <- getattr (args l) "data_dir";
    data <- alloc (EvNew "BlockMaskedCelebA"
                    [ ("data_dir", data_dir);
                      ("block_len", block_len l) ]);
    ret (Some data)
  else
    ret None.

(** Lines 127-135. *)
Definition wire_modules (hard_sigmoid : pyval) : M Nets :=
  run global "torch";
  run emit EvDeviceCount;
  run print (VStr ("Use " +:+ pretty (gpus w) +:+ " GPUs."));
  run global "parallelize";
  net <- construct "ConvDataGenerator" [];
  data_gen <- parallelize net;
  run global "parallelize";
  net <- construct "ConvMaskGenerator" [("hard_sigmoid", hard_sigmoid)];
  mask_gen <- parallelize net;
  net <- construct "UNetImputer" [];
  imputer <- to_device net;
  run global "parallelize";
  net <- construct "ConvCritic" [("n_channels", VInt 3)];
  data_critic <- parallelize net;
  run global "parallelize";
  net <- construct "ConvCritic" [("n_channels", VInt 1)];
  mask_critic <- parallelize net;
  run global "parallelize";
  net <- construct "ConvCritic" [("n_channels", VInt 3)];
  impu_critic <- parallelize net;
  ret {| data_gen := data_gen; mask_gen := mask_gen; imputer := imputer;
          data_critic := data_critic; mask_critic := mask_critic;
          impu_critic := impu_critic |}.

(** Reading a local that may be unassigned. *)
Definition local {A} (name : string) (v : option A) : M A :=
  match v with
  | Some x => ret x
  | None => raise (UnboundLocalError name)
  end.

(** Lines 137-139.  Whatever [misgan_impute] does is the collaborator's
    business: it returns, or it raises. *)
Definition launch (l : Locals) (nets : Nets) (data : option pyval)
    : M unit :=
  run global "misgan_impute";
  data <- local "data" data;
  output_dir <- local "output_dir" (output_dir l);
  run emit (EvMisganImpute (args l)
              (data_gen nets) (mask_gen nets) (imputer nets)
              (data_critic nets) (mask_critic nets) (impu_critic nets)
              data (VPath output_dir) (checkpoint l));
  match training w with
  | Some e => raise e
  | None => ret tt
  end.

(** Lines 24-139. *)
Definition main : M unit :=
  l <- prelude;
  data <- build_dataset l;
  nets <- wire_modules (hard_sigmoid l);
  launch l nets data.

End Script.

(** ** Sample worlds *)

(** A formatter that knows the numbers of a default run. *)
Definition sample_format : PyFormat := {|
  format_g v :=
    match v with
    | VInt z => if Z.abs z <? 100000 then Some (pretty z) else None
    | VFloat f =>
        if PrimFloat.eqb f 0.5 then Some "0.5"
        else if PrimFloat.eqb f 0.1 then Some "0.1"
        else if PrimFloat.eqb f 0.8 then Some "0.8"
        else None
    | _ => None
    end;
  str_other _ := "?"
|}.

(** No option given, an empty disk, one GPU. *)
Definition default_world : World := {|
  cli := ParseGiven ∅;
  clock := "1104.101500";
  files _ := None;
  use_cuda := true;
  gpus := 1;
  training := None
|}.

(** A run that resumes from [runs/old]: the checkpoint stored there was
    written with another mask and remembers only four options. *)
Definition old_saved : Namespace :=
  <["mask" := VStr "indep"]>
    (<["obs_prob" := VFloat 0.5]>
       (<["maskgen" := VStr "sigmoid"]>
          (<["resume" := VNone]> ∅))).

Definition old_checkpoint : Checkpoint := {|
  ckpt_args := Some old_saved;
  ckpt_rest := 7
|}.

#[global] Instance pypath_eq_dec : EqDecision pypath.
Proof. solve_decision. Defined.

Definition resume_world : World := {|
  cli := ParseGiven (<["resume" := VStr "runs/old"]> ∅);
  clock := "1104.101500";
  files p :=
    if bool_decide
         (p = PathDiv (PathDiv (PathOf "runs/old") "log") "checkpoint.pth")
    then Some old_checkpoint else None;
  use_cuda := false;
  gpus := 0;
  training := None
|}.

(** [--imputeronly --maskgen foo]. *)
Definition imputeronly_world : World := {|
  cli := ParseGiven (<["imputeronly" := VBool true]>
                    (<["maskgen" := VStr "foo"]> ∅));
  clock := "1104.101500";
  files _ := None;
  use_cuda := false;
  gpus := 0;
  training := None
|}.

(** [--maskgen foo]. *)
Definition unknown_maskgen_world : World := {|
  cli := ParseGiven (<["maskgen" := VStr "foo"]> ∅);
  clock := "1104.101500";
  files _ := None;
  use_cuda := false;
  gpus := 0;
  training := None
|}.

(** [--prefix /tmp/x]. *)
Definition absolute_prefix_world : World := {|
  cli := ParseGiven (<["prefix" := VStr "/tmp/x"]> ∅);
  clock := "1104.101500";
  files _ := None;
  use_cuda := false;
  gpus := 0;
  training := None
|}.

(** ** Observations on a trace *)

Definition is_add_argument (e : event) : bool :=
  match e with EvAddArgument _ _ => true | _ => false end.


(** One of the network classes of [generator], [imputer] and [critic]. *)
Definition is_network_new (e : event) : bool :=
  match e with
  | EvNew cls _ _ =>
      bool_decide (cls ∈ [ "ConvDataGenerator"; "ConvMaskGenerator";
                           "UNetImputer"; "ConvCritic" ])
  | _ => false
  end.

Definition is_data_parallel (e : event) : bool :=
  match e with EvDataParallel _ _ => true | _ => false end.

(** Any object construction: a network, a dataset or a wrapper. *)
Definition is_construction (e : event) : bool :=
  match e with
  | EvNew _ _ _ | EvDataParallel _ _ => true
  | _ => false
  end.

Definition is_misgan_impute (e : event) : bool :=
  match e with
  | EvMisganImpute _ _ _ _ _ _ _ _ _ _ => true
  | _ => false
  end.

Definition count_events (f : event → bool) (evs : list event) : nat :=
  length (List.filter f evs).

(** The namespace line 64 binds. *)
Definition cli_args (w : World) (n : nat) : result Namespace :=
  res ((parser <- build_parser; parse_args w parser) n).

(** ** The run name, as the specification words it *)

(** [mask_str]: for [block], [block_<block_len>] when [block_len] is truthy
    and [block_varsize] when it is not (0, or [None]). *)

Definition spec_mask_str `{PyFormat} (a : Namespace) : option string :=
  mask ← a !! "mask";
  if eq_str mask "indep" then
    obs_prob ← a !! "obs_prob";
    obs_prob_high ← a !! "obs_prob_high";
    lo ← format_g obs_prob;
    if is_none obs_prob_high then Some ("indep_" +:+ lo)
    else hi ← format_g obs_prob_high; Some ("indep_" +:+ lo +:+ "_" +:+ hi)
  else if eq_str mask "block" then
    block_len ← a !! "block_len";
    if truthy block_len then Some ("block_" +:+ py_str block_len)
    else Some "block_varsize"
  else None.

Definition spec_run_name `{PyFormat} (a : Namespace) (timestamp : string)
    : option string :=
  prefix ← a !! "prefix";
  tau ← a !! "tau" ≫= format_g;
  maskgen ← a !! "maskgen";
  alpha ← a !! "alpha" ≫= format_g;
  beta ← a !! "beta" ≫= format_g;
  gamma ← a !! "gamma" ≫= format_g;
  mask_str ← spec_mask_str a;
  Some (py_str prefix +:+ "_" +:+ timestamp +:+ "_tau_" +:+ tau +:+
        "_maskgen_" +:+ py_str maskgen +:+
        "_coef_" +:+ alpha +:+ "_" +:+ beta +:+ "_" +:+ gamma +:+
        "_" +:+ mask_str).

(** The two validations of lines 87-104, as predicates on the arguments. *)
Definition maskgen_ok (a : Namespace) : bool :=
  match a !! "maskgen" with
  | Some v => eq_str v "sigmoid" || eq_str v "hardsigmoid" || eq_str v "fusion"
  | None => false
  end.

Definition mask_ok (a : Namespace) : bool :=
  match a !! "mask" with
  | Some v => eq_str v "indep" || eq_str v "block"
  | None => false
  end.

(** What the specification says [hard_sigmoid] is. *)
Definition spec_hard_sigmoid (maskgen : pyval) : option pyval :=
  if eq_str maskgen "sigmoid" then Some (VBool false)
  else if eq_str maskgen "hardsigmoid" then Some (VBool true)
  else if eq_str maskgen "fusion"
       then Some (VPair (VFloat (-0.1)) (VFloat 1.1))
  else None.

(** [Path(v)] without its name lookup. *)
Definition as_path (v : pyval) : option pypath :=
  match v with
  | VStr s => Some (PathOf s)
  | VPath p => Some p
  | _ => None
  end.

(** An event that [f] does not recognise. *)
Definition quiet (f : event → bool) (e : event) : Prop := f e = false.

(** "About [target]": within a tenth of it. *)
Definition about (target c : nat) : Prop :=
  (10 * (c - target) ≤ target ∧ 10 * (target - c) ≤ target)%nat.

(** The actions [build_parser] leaves in the parser, and its trace. *)
Definition registered_actions : list Action :=
  match res (build_parser 0%nat) with
  | Ok parser => parser
  | Raise _ => []
  end.

Definition parser_trace : list event := events (build_parser 0%nat).

Arguments registered_actions : simpl never.
Arguments parser_trace : simpl never.

(** The run returned. *)
Definition is_ok {A} (r : result A) : bool :=
  match r with
  | Ok _ => true
  | Raise _ => false
  end.

(** The namespace of a run whose command line is accepted. *)
Definition parsed_args (w : World) : Namespace :=
  match cli_args w 0%nat with
  | Ok a => a
  | Raise _ => ∅
  end.

(** Where line 71 looks for the checkpoint of the run directory [dir]. *)
Definition checkpoint_file (dir : pypath) : pypath :=
  PathDiv (PathDiv dir "log") "checkpoint.pth".

(** What lines 66-75 do, case by case. *)
Definition resume_outcome `{PyFormat} (w : World) (a : Namespace) (n : nat)
    : Out (Namespace * option Checkpoint * option pypath) :=
  match a !! "resume" with
  | None => MkOut [] n (Raise (AttributeError "resume"))
  | Some r =>
      if truthy r then
        let said := EvPrint (VStr ("Resume: " +:+ py_str r)) in
        match as_path r with
        | None => MkOut [said] n (Raise TypeError)
        | Some dir =>
            let loaded := EvTorchLoad (checkpoint_file dir) in
            match files w (checkpoint_file dir) with
            | None => MkOut [said; loaded] n (Raise LoadError)
            | Some ck =>
                match ckpt_args ck with
                | None => MkOut [said; loaded] n (Raise (KeyError "args"))
                | Some saved =>
                    MkOut [said; loaded] n
                      (Ok (apply_saved_args saved a, Some ck, Some dir))
                end
            end
        end
      else MkOut [] n (Ok (a, None, None))
  end.

(** The classes instantiated along a trace, with their keyword arguments. *)
Definition constructed (evs : list event)
    : list (string * list (string * pyval)) :=
  flat_map (λ e, match e with
                 | EvNew cls kwargs _ => [(cls, kwargs)]
                 | _ => []
                 end) evs.

(** The objects instantiated along a trace, each with its class. *)
Definition instances (evs : list event) : list (string * pyval) :=
  flat_map (λ e, match e with
                 | EvNew cls _ o => [(cls, VObj o)]
                 | _ => []
                 end) evs.

(** The objects wrapped in [nn.DataParallel] along a trace, with their
    wrappers. *)
Definition wrapped (evs : list event) : list (pyval * pyval) :=
  flat_map (λ e, match e with
                 | EvDataParallel model o => [(model, VObj o)]
                 | _ => []
                 end) evs.

(** The events of lines 127-135 when the object counter stands at [n]. *)
Definition wiring_trace (w : World) (hard_sigmoid : pyval) (n : nat)
    : list event :=
  [ EvDeviceCount;
    EvPrint (VStr ("Use " +:+ pretty (gpus w) +:+ " GPUs."));
    EvNew "ConvDataGenerator" [] n;
    EvDataParallel (VObj n) (1 + n);
    EvTo (VObj (1 + n)) (device w);
    EvNew "ConvMaskGenerator" [("hard_sigmoid", hard_sigmoid)] (2 + n);
    EvDataParallel (VObj (2 + n)) (3 + n);
    EvTo (VObj (3 + n)) (device w);
    EvNew "UNetImputer" [] (4 + n);
    EvTo (VObj (4 + n)) (device w);
    EvNew "ConvCritic" [("n_channels", VInt 3)] (5 + n);
    EvDataParallel (VObj (5 + n)) (6 + n);
    EvTo (VObj (6 + n)) (device w);
    EvNew "ConvCritic" [("n_channels", VInt 1)] (7 + n);
    EvDataParallel (VObj (7 + n)) (8 + n);
    EvTo (VObj (8 + n)) (device w);
    EvNew "ConvCritic" [("n_channels", VInt 3)] (9 + n);
    EvDataParallel (VObj (9 + n)) (10 + n);
    EvTo (VObj (10 + n)) (device w) ]%nat.

(** The networks they leave in the six locals. *)
Definition wired_nets (n : nat) : Nets := {|
  data_gen := VObj (1 + n);
  mask_gen := VObj (3 + n);
  imputer := VObj (4 + n);
  data_critic := VObj (6 + n);
  mask_critic := VObj (8 + n);
  impu_critic := VObj (10 + n)
|}.

(** An event within the alphabet [alph]. *)
Definition within (alph : event → bool) (e : event) : Prop := alph e = true.

(** Building the parser. *)
Definition parser_event (e : event) : bool :=
  match e with
  | EvArgumentParser | EvAddArgument _ _ => true
  | _ => false
  end.

(** What lines 80-117 do to the outside: print, read the clock. *)
Definition note_event (e : event) : bool :=
  match e with
  | EvPrint _ | EvNow => true
  | _ => false
  end.

(** What lines 64-117 do to the outside: parse, print, load, read the
    clock. *)
Definition io_event (e : event) : bool :=
  match e with
  | EvParseArgs | EvPrint _ | EvTorchLoad _ | EvNow => true
  | _ => false
  end.

(** What lines 119-139 do to the outside. *)
Definition wiring_event (e : event) : bool :=
  match e with
  | EvDeviceCount | EvPrint _ | EvNew _ _ _ | EvDataParallel _ _
  | EvTo _ _ | EvMisganImpute _ _ _ _ _ _ _ _ _ _ => true
  | _ => false
  end.

(** A block all of whose events satisfy [P], from whatever counter it
    starts. *)
Definition only {A} (P : event → Prop) (m : M A) : Prop :=
  ∀ n, Forall P (events (m n)).

(** A block that cannot end with [NotImplementedError]. *)
Definition safe {A} (m : M A) : Prop :=
  ∀ n, res (m n) ≠ Raise NotImplementedError.

(** ** Further observations, for the properties beyond the claims *)

(** [--help]: argparse prints the usage and exits with status 0. *)
Definition help_world : World := {|
  cli := ParseExit 0;
  clock := "1104.101500";
  files _ := None;
  use_cuda := false;
  gpus := 0;
  training := None
|}.

(** [--resume runs/old] with nothing on the disk. *)
Definition missing_checkpoint_world : World := {|
  cli := ParseGiven (<["resume" := VStr "runs/old"]> ∅);
  clock := "1104.101500";
  files _ := None;
  use_cuda := false;
  gpus := 0;
  training := None
|}.

(** [--block-len 0]. *)
Definition varsize_world : World := {|
  cli := ParseGiven (<["block_len" := VInt 0]> ∅);
  clock := "1104.101500";
  files _ := None;
  use_cuda := false;
  gpus := 0;
  training := None
|}.

(** The events [evs] followed by the outcome [o]. *)
Definition prepend {A} (evs : list event) (o : Out A) : Out A :=
  MkOut (evs ++ events o) (fresh o) (res o).

(** A block that emits nothing and allocates nothing. *)
Definition silent {A} (m : M A) : Prop :=
  ∀ n, events (m n) = [] ∧ fresh (m n) = n.

(** A block whose exceptions all satisfy [Q]. *)
Definition ends_in {A} (Q : exn → bool) (m : M A) : Prop :=
  ∀ n e, res (m n) = Raise e → Q e = true.

(** [TypeError], [ValueError] or [OverflowError], what a failed
    [format(v, 'g')] raises. *)
Definition format_error (e : exn) : bool :=
  match e with
  | TypeError | ValueError | OverflowError => true
  | _ => false
  end.

(** What lines 87-113 can raise: the two [raise NotImplementedError] and a
    failed [:g]. *)
Definition validation_error (e : exn) : bool :=
  match e with
  | NotImplementedError | TypeError | ValueError | OverflowError => true
  | _ => false
  end.

(** The ways a run of [main] can end. *)
Definition expected_end (e : exn) : bool :=
  match e with
  | SystemExit _ | AssertionError | NotImplementedError
  | LoadError | TypeError | ValueError | OverflowError => true
  | KeyError key => String.eqb key "args"
  | NameError name =>
      String.eqb name "IndepMaskedCelebA" ||
      String.eqb name "BlockMaskedCelebA"
  | _ => false
  end.

(** The objects moved to a device along a trace, with the device. *)
Definition moved (evs : list event) : list (pyval * string) :=
  flat_map (λ e, match e with
                 | EvTo model dev => [(model, dev)]
                 | _ => []
                 end) evs.

(** The objects the collaborator classes returned along a trace. *)
Definition created (evs : list event) : list pyval :=
  flat_map (λ e, match e with
                 | EvNew _ _ o => [VObj o]
                 | _ => []
                 end) evs.

(** What lines 80-117 do once lines 25-78 have left the arguments [a], with
    [mask], [obs_prob], [obs_prob_high], [block_len], [maskgen] and [resume]
    read from them. *)
Definition validated_outcome `{PyFormat} (w : World) (a : Namespace)
    (c : option Checkpoint) (od : option pypath)
    (m op oph bl0 v r : pyval) (n : nat) : Out Locals :=
  let bl := if eq_zero bl0 then VNone else bl0 in
  match spec_hard_sigmoid v with
  | None => MkOut [] n (Raise NotImplementedError)
  | Some hs =>
      match res (choose_mask_str m op oph bl n) with
      | Raise e => MkOut [] n (Raise e)
      | Ok ms =>
          match res (build_path w a ms n) with
          | Raise e => MkOut [EvNow] n (Raise e)
          | Ok p =>
              let locals od' :=
                {| args := a; checkpoint := c; output_dir := od';
                   mask := m; obs_prob := op; obs_prob_high := oph;
                   block_len := bl; hard_sigmoid := hs; mask_str := ms;
                   path := p |} in
              if truthy r then MkOut [EvNow] n (Ok (locals od))
              else
                let out := path_div (PathDiv (PathOf "results") "celeba") p in
                MkOut [EvNow; EvPrint (VPath out)] n (Ok (locals (Some out)))
          end
      end
  end.

(** ** The monad: equations *)

Lemma res_bind {A B} (m : M A) (k : A → M B) n :
  res (bind m k n) =
  match res (m n) with
  | Ok a => res (k a (fresh (m n)))
  | Raise e => Raise e
  end.
Proof.
  unfold bind. destruct (m n) as [evs n' [a|e]]; simpl;
    [destruct (k a n') | ]; reflexivity.
Qed.

Lemma events_bind {A B} (m : M A) (k : A → M B) n :
  events (bind m k n) =
  events (m n) ++
  match res (m n) with
  | Ok a => events (k a (fresh (m n)))
  | Raise e => []
  end.
Proof.
  unfold bind. destruct (m n) as [evs n' [a|e]]; simpl;
    [destruct (k a n'); reflexivity | symmetry; apply app_nil_r].
Qed.

Lemma res_bind_Ok {A B} (m : M A) (k : A → M B) n b :
  res (bind m k n) = Ok b →
  ∃ a, res (m n) = Ok a ∧ res (k a (fresh (m n))) = Ok b.
Proof.
  rewrite res_bind. destruct (res (m n)) as [a|e]; [eauto | discriminate].
Qed.

Lemma res_bind_Raise {A B} (m : M A) (k : A → M B) n e :
  res (m n) = Raise e → res (bind m k n) = Raise e.
Proof. intros Hm. rewrite res_bind, Hm. reflexivity. Qed.

Lemma res_bind_step {A B} (m : M A) (k : A → M B) n a :
  res (m n) = Ok a → res (bind m k n) = res (k a (fresh (m n))).
Proof. intros Hm. rewrite res_bind, Hm. reflexivity. Qed.

Lemma events_bind_step {A B} (m : M A) (k : A → M B) n a :
  res (m n) = Ok a →
  events (bind m k n) = events (m n) ++ events (k a (fresh (m n))).
Proof. intros Hm. rewrite events_bind, Hm. reflexivity. Qed.

Lemma events_bind_Raise {A B} (m : M A) (k : A → M B) n e :
  res (m n) = Raise e → events (bind m k n) = events (m n).
Proof. intros Hm. rewrite events_bind, Hm. apply app_nil_r. Qed.

(** ** Which events a block can produce *)

Lemma only_ret {A} P (a : A) : only P (ret a).
Proof. intros n. constructor. Qed.

Lemma only_raise {A} P e : only P (@raise A e).
Proof. intros n. constructor. Qed.

Lemma only_bind {A B} P (m : M A) (k : A → M B) :
  only P m → (∀ a, only P (k a)) → only P (bind m k).
Proof.
  intros Hm Hk n. rewrite events_bind. apply Forall_app. split; [apply Hm |].
  destruct (res (m n)); [apply Hk | constructor].
Qed.

Lemma only_emit P e : P e → only P (emit e).
Proof. intros He n. repeat constructor. exact He. Qed.

Lemma only_alloc P mk : (∀ o, P (mk o)) → only P (alloc mk).
Proof. intros He n. repeat constructor. apply He. Qed.

Lemma only_global P name : only P (global name).
Proof.
  unfold global.
  destruct (_ || _); [apply only_ret | apply only_raise].
Qed.

Ltac only_step :=
  first
    [ apply only_ret
    | apply only_raise
    | apply only_global
    | apply only_emit; reflexivity
    | apply only_alloc; intros ?; reflexivity
    | apply only_bind; [| intros ?]
    | match goal with
      | |- only _ (if ?b then _ else _) => destruct b
      | |- only _ (match ?x with _ => _ end) => destruct x
      | |- only _ (let '_ := ?x in _) => destruct x
      end ].

(** ** Reading a successful run backwards *)

Lemma getattr_Ok (a : Namespace) name n v :
  res (getattr a name n) = Ok v → a !! name = Some v.
Proof.
  unfold getattr. destruct (a !! name); simpl; congruence.
Qed.

Lemma getattr_Some (a : Namespace) name n v :
  a !! name = Some v → getattr a name n = MkOut [] n (Ok v).
Proof. intros Hv. unfold getattr. rewrite Hv. reflexivity. Qed.

Lemma fmt_g_Ok `{PyFormat} v n s :
  res (fmt_g v n) = Ok s → format_g v = Some s.
Proof.
  unfold fmt_g. destruct (format_g v); simpl; congruence.
Qed.

(** What a completed prelude says about the locals it returns. *)
Lemma prelude_Ok `{PyFormat} (w : World) n l :
  res (prelude w n) = Ok l →
  ∃ od0 bl0 n1 n2 n3 n4,
    res (setup w n) = Ok (args l, checkpoint l, od0) ∧
    args l !! "mask" = Some (mask l) ∧
    args l !! "obs_prob" = Some (obs_prob l) ∧
    args l !! "obs_prob_high" = Some (obs_prob_high l) ∧
    args l !! "block_len" = Some bl0 ∧
    block_len l = (if eq_zero bl0 then VNone else bl0) ∧
    res (choose_hard_sigmoid (args l) n1) = Ok (hard_sigmoid l) ∧
    res (choose_mask_str (mask l) (obs_prob l) (obs_prob_high l)
           (block_len l) n2) = Ok (mask_str l) ∧
    res (build_path w (args l) (mask_str l) n3) = Ok (path l) ∧
    res (choose_output_dir (args l) (path l) od0 n4) = Ok (output_dir l).
Proof.
  intros Hl. unfold prelude in Hl.
  apply res_bind_Ok in Hl. destruct Hl as ([[a ck] od0] & Hsetup & Hl).
  apply res_bind_Ok in Hl. destruct Hl as (m & Hm & Hl).
  apply res_bind_Ok in Hl. destruct Hl as (op & Hop & Hl).
  apply res_bind_Ok in Hl. destruct Hl as (oph & Hoph & Hl).
  apply res_bind_Ok in Hl. destruct Hl as (bl0 & Hbl0 & Hl).
  apply res_bind_Ok in Hl. destruct Hl as (bl & Hbl & Hl).
  apply res_bind_Ok in Hl. destruct Hl as (hs & Hhs & Hl).
  apply res_bind_Ok in Hl. destruct Hl as (ms & Hms & Hl).
  apply res_bind_Ok in Hl. destruct Hl as (p & Hp & Hl).
  apply res_bind_Ok in Hl. destruct Hl as (od & Hod & Hl).
  apply getattr_Ok in Hm, Hop, Hoph, Hbl0.
  injection Hbl as <-. injection Hl as <-.
  cbn [args checkpoint output_dir mask obs_prob obs_prob_high block_len
       hard_sigmoid mask_str path].
  exists od0, bl0. do 4 eexists.
  split; [exact Hsetup |]. split; [exact Hm |]. split; [exact Hop |].
  split; [exact Hoph |]. split; [exact Hbl0 |]. split; [reflexivity |].
  split; [exact Hhs |]. split; [exact Hms |]. split; [exact Hp |].
  exact Hod.
Qed.

(** ** Counting events *)

Lemma count_events_app f l1 l2 :
  count_events f (l1 ++ l2) = (count_events f l1 + count_events f l2)%nat.
Proof. unfold count_events. rewrite List.filter_app. apply length_app. Qed.

Lemma filter_quiet f l : Forall (quiet f) l → List.filter f l = [].
Proof.
  induction 1 as [|e l He _ IH]; simpl; [reflexivity |].
  rewrite He. exact IH.
Qed.

Lemma count_events_quiet f l : Forall (quiet f) l → count_events f l = 0%nat.
Proof. intros Hl. unfold count_events. rewrite (filter_quiet f l Hl). reflexivity. Qed.

Lemma events_bind_tail {A B} (P : event → Prop) (m : M A) (k : A → M B) n :
  (∀ a, only P (k a)) →
  ∃ tl, events (bind m k n) = events (m n) ++ tl ∧ Forall P tl.
Proof.
  intros Hk. rewrite events_bind. eexists. split; [reflexivity |].
  destruct (res (m n)); [apply Hk | constructor].
Qed.

(** ** What each part of the script can emit *)

Ltac only_script :=
  unfold parse_args, resume_block, check_imputeronly, choose_hard_sigmoid,
    choose_mask_str, build_path, choose_output_dir, build_dataset,
    wire_modules, launch, parallelize, to_device, construct, torch_load,
    print, Path, now_stamp, fmt_g, getattr, local, add_argument;
  repeat only_step.

Lemma only_weaken {A} (P Q : event → Prop) (m : M A) :
  (∀ e, P e → Q e) → only P m → only Q m.
Proof. intros HPQ Hm n. eapply Forall_impl; [apply Hm | exact HPQ]. Qed.

Lemma build_parser_alphabet : only (within parser_event) build_parser.
Proof. unfold build_parser. only_script. Qed.

Lemma after_parser_alphabet `{PyFormat} (w : World) parser :
  only (within io_event)
    (a <- parse_args w parser;
     r <- resume_block w a;
     run check_imputeronly (fst (fst r));
     ret r).
Proof. only_script. Qed.

Lemma after_setup_alphabet `{PyFormat} (w : World)
    (x : Namespace * option Checkpoint * option pypath) :
  only (within note_event)
    (let '(a, checkpoint, output_dir) := x in
     mask <- getattr a "mask";
     obs_prob <- getattr a "obs_prob";
     obs_prob_high <- getattr a "obs_prob_high";
     block_len <- getattr a "block_len";
     block_len <- ret (if eq_zero block_len then VNone else block_len);
     hard_sigmoid <- choose_hard_sigmoid a;
     mask_str <- choose_mask_str mask obs_prob obs_prob_high block_len;
     path <- build_path w a mask_str;
     output_dir <- choose_output_dir a path output_dir;
     ret {| args := a; checkpoint := checkpoint; output_dir := output_dir;
            mask := mask; obs_prob := obs_prob;
            obs_prob_high := obs_prob_high; block_len := block_len;
            hard_sigmoid := hard_sigmoid; mask_str := mask_str;
            path := path |}).
Proof. only_script. Qed.

Lemma after_prelude_alphabet (w : World) l :
  only (within wiring_event)
    (data <- build_dataset l;
     nets <- wire_modules w (hard_sigmoid l);
     launch w l nets data).
Proof. only_script. Qed.

Lemma note_io e : within note_event e → within io_event e.
Proof. destruct e; unfold within; simpl; congruence. Qed.

Lemma setup_alphabet `{PyFormat} (w : World) :
  only (λ e, within parser_event e ∨ within io_event e) (setup w).
Proof.
  unfold setup. apply only_bind.
  - eapply only_weaken; [| apply build_parser_alphabet]. auto.
  - intros parser. eapply only_weaken; [| apply after_parser_alphabet]. auto.
Qed.

Lemma prelude_alphabet `{PyFormat} (w : World) :
  only (λ e, within parser_event e ∨ within io_event e) (prelude w).
Proof.
  unfold prelude. apply only_bind; [apply setup_alphabet |].
  intros x. eapply only_weaken; [| apply after_setup_alphabet].
  intros e He. right. revert He. apply note_io.
Qed.

Lemma build_parser_options n :
  count_events is_add_argument (events (build_parser n)) = 22%nat.
Proof. reflexivity. Qed.

Lemma io_no_option e : within io_event e → quiet is_add_argument e.
Proof. destruct e; simpl; unfold within, quiet; simpl; congruence. Qed.

Lemma wiring_no_option e : within wiring_event e → quiet is_add_argument e.
Proof. destruct e; simpl; unfold within, quiet; simpl; congruence. Qed.

(** Splits the events of the bind in the goal into those of its first part
    and a tail within the alphabet [lem] gives to the rest. *)
Ltac split_tail P lem :=
  match goal with
  | |- context [events (bind ?m ?k ?n)] =>
      let tl := fresh "tl" in
      let E := fresh "E" in
      let F := fresh "F" in
      destruct (events_bind_tail P m k n) as (tl & E & F);
      [ intros ?; eapply only_weaken; [| apply lem]; auto
      | rewrite E ]
  end.

(** C8 (confirmed): in every run the parser receives exactly 22
    [add_argument] calls, whatever the command line, the checkpoint and the
    later course of the run are; 22 is about 20 (within a tenth of it). *)
Theorem main_registers_about_20_options `{PyFormat} (w : World) n :
  count_events is_add_argument (events (main w n)) = 22%nat ∧
  about 20 (count_events is_add_argument (events (main w n))).
Proof.
  assert (count_events is_add_argument (events (main w n)) = 22%nat) as ->.
  { unfold main.
    split_tail (quiet is_add_argument) after_prelude_alphabet;
      [apply wiring_no_option |].
    unfold prelude.
    split_tail (quiet is_add_argument) after_setup_alphabet;
      [intros e He; apply io_no_option, note_io, He |].
    unfold setup.
    split_tail (quiet is_add_argument) after_parser_alphabet;
      [apply io_no_option |].
    rewrite !count_events_app, build_parser_options.
    rewrite !count_events_quiet by assumption. reflexivity. }
  split; [reflexivity |]. unfold about. simpl. lia.
Qed.

(** ** The dataset names are not bound *)

Lemma choose_mask_str_Ok `{PyFormat} m op oph bl n s :
  res (choose_mask_str m op oph bl n) = Ok s →
  eq_str m "indep" = true ∨ eq_str m "block" = true.
Proof.
  unfold choose_mask_str.
  destruct (eq_str m "indep"); [auto |].
  destruct (eq_str m "block"); [auto |].
  simpl. discriminate.
Qed.

Lemma build_dataset_indep l n :
  eq_str (mask l) "indep" = true →
  build_dataset l n = MkOut [] n (Raise (NameError "IndepMaskedCelebA")).
Proof. intros Hm. unfold build_dataset. rewrite Hm. reflexivity. Qed.

Lemma build_dataset_block l n :
  eq_str (mask l) "indep" = false →
  eq_str (mask l) "block" = true →
  build_dataset l n = MkOut [] n (Raise (NameError "BlockMaskedCelebA")).
Proof. intros Hi Hb. unfold build_dataset. rewrite Hi, Hb. reflexivity. Qed.

(** The name the dataset line fails on. *)
Lemma prelude_then_NameError `{PyFormat} (w : World) n l :
  res (prelude w n) = Ok l →
  ∃ name,
    (name = "IndepMaskedCelebA" ∧ eq_str (mask l) "indep" = true ∨
     name = "BlockMaskedCelebA" ∧ eq_str (mask l) "block" = true) ∧
    res (main w n) = Raise (NameError name) ∧
    events (main w n) = events (prelude w n).
Proof.
  intros Hl.
  destruct (prelude_Ok w n l Hl)
    as (od0 & bl0 & n1 & n2 & n3 & n4 & _ & _ & _ & _ & _ & _ & _ & Hms & _).
  apply choose_mask_str_Ok in Hms.
  unfold main.
  rewrite (res_bind_step _ _ _ _ Hl), (events_bind_step _ _ _ _ Hl).
  destruct (eq_str (mask l) "indep") eqn:Hi.
  - exists "IndepMaskedCelebA". split; [auto |].
    rewrite res_bind, events_bind, (build_dataset_indep l _ Hi). simpl.
    split; [reflexivity | apply app_nil_r].
  - destruct Hms as [Hms | Hb]; [discriminate |].
    exists "BlockMaskedCelebA". split; [auto |].
    rewrite res_bind, events_bind, (build_dataset_block l _ Hi Hb). simpl.
    split; [reflexivity | apply app_nil_r].
Qed.

Lemma main_events `{PyFormat} (w : World) n :
  events (main w n) = events (prelude w n).
Proof.
  destruct (res (prelude w n)) as [l|e] eqn:Hl.
  - destruct (prelude_then_NameError w n l Hl) as (name & _ & _ & E). exact E.
  - unfold main. apply (events_bind_Raise _ _ _ _ Hl).
Qed.

Lemma prelude_no_call e :
  within parser_event e ∨ within io_event e → quiet is_misgan_impute e.
Proof.
  destruct e; unfold within, quiet; simpl; intros [?|?]; congruence.
Qed.

(** C1 (confirmed): the module binds [IndepMaskedImage] and
    [BlockMaskedImage] but neither [IndepMaskedCelebA] nor
    [BlockMaskedCelebA]; a run that gets as far as the dataset line has
    [mask] equal to ['indep'] or ['block'] and ends there with the
    [NameError] of the class name that line uses; hence no run at all returns
    normally or reaches the call of [misgan_impute]. *)
Theorem main_never_reaches_misgan_impute `{PyFormat} (w : World) n :
  (¬ ("IndepMaskedCelebA" ∈ module_globals ++ builtins) ∧
   ¬ ("BlockMaskedCelebA" ∈ module_globals ++ builtins) ∧
   ("IndepMaskedImage" ∈ module_globals) ∧
   ("BlockMaskedImage" ∈ module_globals)) ∧
  (∀ l, res (prelude w n) = Ok l →
        eq_str (mask l) "indep" = true ∧
          res (main w n) = Raise (NameError "IndepMaskedCelebA") ∨
        eq_str (mask l) "block" = true ∧
          res (main w n) = Raise (NameError "BlockMaskedCelebA")) ∧
  (∃ e, res (main w n) = Raise e) ∧
  count_events is_misgan_impute (events (main w n)) = 0%nat.
Proof.
  split; [| split; [| split]].
  - repeat split;
      first [ apply (bool_decide_eq_false_1 _); reflexivity
            | apply (bool_decide_eq_true_1 _); reflexivity ].
  - intros l Hl.
    destruct (prelude_then_NameError w n l Hl)
      as (name & [[-> Hm] | [-> Hm]] & Hres & _); auto.
  - destruct (res (prelude w n)) as [l|e] eqn:Hl.
    + destruct (prelude_then_NameError w n l Hl) as (name & _ & Hres & _).
      eauto.
    + exists e. unfold main. apply (res_bind_Raise _ _ _ _ Hl).
  - apply count_events_quiet. rewrite main_events.
    eapply Forall_impl; [apply prelude_alphabet | apply prelude_no_call].
Qed.

(** ** The wiring block, run on its own *)

Lemma wire_modules_run (w : World) hs n :
  wire_modules w hs n =
  MkOut (wiring_trace w hs n) (11 + n)%nat (Ok (wired_nets n)).
Proof. reflexivity. Qed.

Lemma launch_run (w : World) l nets data n :
  launch w l nets data n =
  match data, output_dir l with
  | Some d, Some od =>
      MkOut [ EvMisganImpute (args l)
                (data_gen nets) (mask_gen nets) (imputer nets)
                (data_critic nets) (mask_critic nets) (impu_critic nets)
                d (VPath od) (checkpoint l) ]
            n
            match training w with
            | Some e => Raise e
            | None => Ok tt
            end
  | Some _, None => MkOut [] n (Raise (UnboundLocalError "output_dir"))
  | None, _ => MkOut [] n (Raise (UnboundLocalError "data"))
  end.
Proof.
  unfold launch. destruct data as [d|]; [| reflexivity].
  destruct (output_dir l) as [od|]; [| reflexivity].
  simpl. unfold bind. simpl. destruct (training w); reflexivity.
Qed.

Lemma default_run :
  @main sample_format default_world 0%nat =
  MkOut (events (@prelude sample_format default_world 0%nat)) 0%nat
        (Raise (NameError "BlockMaskedCelebA")).
Proof. vm_compute. reflexivity. Qed.

(** C2 (corrected), the claim as stated fails: a default run constructs no
    network at all, and the construction block itself, run from a fresh
    counter, constructs six networks (eleven modules with the wrappers), in
    neither case five. *)
Lemma five_networks_counterexample :
  count_events is_network_new (events (@main sample_format default_world 0%nat))
    ≠ 5%nat ∧
  count_events is_network_new
    (events (wire_modules default_world (VBool false) 0%nat)) ≠ 5%nat ∧
  count_events is_construction
    (events (wire_modules default_world (VBool false) 0%nat)) ≠ 5%nat.
Proof. vm_compute. repeat split; discriminate. Qed.

(** C2 (corrected), as amended: the construction block of lines 127-135,
    whenever it runs, completes and constructs exactly six networks, one
    [ConvDataGenerator], one [ConvMaskGenerator], one [UNetImputer] and three
    [ConvCritic], six different objects, and wraps exactly five of them in
    [nn.DataParallel]: the wrappers of the two generators and of the three
    critics, in this order, are what the five locals other than [imputer]
    hold, while [imputer] holds the [UNetImputer] object itself, which no
    wrapper takes; and every wrapping is a call of [parallelize], the
    wrapper being moved to the device at once. *)
Theorem wire_modules_constructs_six (w : World) hs n :
  let evs := events (wire_modules w hs n) in
  (∃ nets, res (wire_modules w hs n) = Ok nets) ∧
  count_events is_network_new evs = 6%nat ∧
  map fst (constructed evs) =
    [ "ConvDataGenerator"; "ConvMaskGenerator"; "UNetImputer";
      "ConvCritic"; "ConvCritic"; "ConvCritic" ] ∧
  count_events is_data_parallel evs = 5%nat ∧
  (∃ nets dg mg im dc mc ic,
     res (wire_modules w hs n) = Ok nets ∧
     instances evs =
       [ ("ConvDataGenerator", dg); ("ConvMaskGenerator", mg);
         ("UNetImputer", im);
         ("ConvCritic", dc); ("ConvCritic", mc); ("ConvCritic", ic) ] ∧
     NoDup [dg; mg; im; dc; mc; ic] ∧
     wrapped evs =
       [ (dg, data_gen nets); (mg, mask_gen nets);
         (dc, data_critic nets); (mc, mask_critic nets);
         (ic, impu_critic nets) ] ∧
     imputer nets = im) ∧
  (∀ i model o,
     evs !! i = Some (EvDataParallel model o) →
     take 2%nat (drop i evs) = events (parallelize w model o)).
Proof.
  cbv zeta. rewrite wire_modules_run. cbn [events res].
  split; [eauto |]. do 3 (split; [reflexivity |]). split.
  - exists (wired_nets n), (VObj n), (VObj (2 + n)%nat), (VObj (4 + n)%nat),
      (VObj (5 + n)%nat), (VObj (7 + n)%nat), (VObj (9 + n)%nat).
    split; [reflexivity |]. split; [reflexivity |].
    split; [| split; reflexivity].
    repeat (apply NoDup_cons; split;
            [ rewrite ?not_elem_of_cons; repeat split;
              first [ intros Heq; injection Heq; lia
                    | apply not_elem_of_nil ]
            | ]).
    apply NoDup_nil_2.
  - intros i model o Hi. unfold wiring_trace in Hi |- *.
    do 19 (destruct i as [|i];
           [ cbn in Hi; try discriminate Hi;
             injection Hi as <- <-; reflexivity
           | ]).
    discriminate Hi.
Qed.

(** C6 (code bug in the script): the wiring the claim describes is what
    lines 127-139 do when they run, the networks are the three generators
    with their critics of 3, 1 and 3 channels and they are all handed to
    [misgan_impute], but a default run stops at the dataset line with
    [NameError] and wires nothing. *)
Theorem wiring_as_claimed_but_unreached (w : World) l d n :
  wire_modules w (hard_sigmoid l) n =
    MkOut (wiring_trace w (hard_sigmoid l) n) (11 + n)%nat (Ok (wired_nets n)) ∧
  constructed (wiring_trace w (hard_sigmoid l) n) =
    [ ("ConvDataGenerator", []);
      ("ConvMaskGenerator", [("hard_sigmoid", hard_sigmoid l)]);
      ("UNetImputer", []);
      ("ConvCritic", [("n_channels", VInt 3)]);
      ("ConvCritic", [("n_channels", VInt 1)]);
      ("ConvCritic", [("n_channels", VInt 3)]) ] ∧
  match output_dir l with
  | Some od =>
      events (launch w l (wired_nets n) (Some d) (11 + n)%nat) =
      [ EvMisganImpute (args l)
          (VObj (1 + n)%nat) (VObj (3 + n)%nat) (VObj (4 + n)%nat)
          (VObj (6 + n)%nat) (VObj (8 + n)%nat) (VObj (10 + n)%nat)
          d (VPath od) (checkpoint l) ]
  | None => True
  end ∧
  res (@main sample_format default_world 0%nat) =
    Raise (NameError "BlockMaskedCelebA") ∧
  count_events is_construction
    (events (@main sample_format default_world 0%nat)) = 0%nat.
Proof.
  split; [apply wire_modules_run |]. split; [reflexivity |].
  split.
  - rewrite launch_run. destruct (output_dir l); [reflexivity | exact I].
  - rewrite default_run. split; [reflexivity |]. vm_compute. reflexivity.
Qed.

(** C9 (code bug in the script): line 137, when it runs, makes the one call
    the claim describes, with the arguments in the claimed order, and [main]
    ends with whatever that call does; in a default run it is never reached,
    the run ends before with [NameError] and without any call of
    [misgan_impute]. *)
Theorem launch_as_claimed_but_unreached (w : World) l nets d n :
  launch w l nets (Some d) n =
    match output_dir l with
    | Some od =>
        MkOut [ EvMisganImpute (args l)
                  (data_gen nets) (mask_gen nets) (imputer nets)
                  (data_critic nets) (mask_critic nets) (impu_critic nets)
                  d (VPath od) (checkpoint l) ]
              n
              match training w with
              | Some e => Raise e
              | None => Ok tt
              end
    | None => MkOut [] n (Raise (UnboundLocalError "output_dir"))
    end ∧
  res (@main sample_format default_world 0%nat) =
    Raise (NameError "BlockMaskedCelebA") ∧
  count_events is_misgan_impute
    (events (@main sample_format default_world 0%nat)) = 0%nat.
Proof.
  split; [rewrite launch_run; reflexivity |].
  rewrite default_run. split; [reflexivity |]. vm_compute. reflexivity.
Qed.

(** ** The parsed arguments of a sample run *)

Lemma cli_args_parsed (w : World) :
  is_ok (cli_args w 0%nat) = true → cli_args w 0%nat = Ok (parsed_args w).
Proof.
  unfold parsed_args. destruct (cli_args w 0%nat); [reflexivity | discriminate].
Qed.

(** ** The resume block *)

Lemma apply_saved_args_lookup (saved a : Namespace) k :
  apply_saved_args saved a !! k =
  if decide (k = "resume") then a !! k
  else match saved !! k with
       | Some v => Some v
       | None => a !! k
       end.
Proof.
  unfold apply_saved_args. revert k.
  apply (map_fold_weak_ind
           (λ r (m : Namespace), ∀ k,
              r !! k = if decide (k = "resume") then a !! k
                       else match m !! k with
                            | Some v => Some v
                            | None => a !! k
                            end)).
  - intros k. rewrite lookup_empty. destruct (decide _); reflexivity.
  - intros i x m r Hi IH k. case_bool_decide as Hin.
    + apply list_elem_of_singleton in Hin. subst i. rewrite IH.
      destruct (decide (k = "resume")) as [Hk|Hk]; [reflexivity |].
      rewrite lookup_insert_ne by congruence. reflexivity.
    + rewrite list_elem_of_singleton in Hin.
      destruct (decide (i = k)) as [<-|Hik].
      * rewrite !lookup_insert_eq.
        destruct (decide (i = "resume")); [contradiction | reflexivity].
      * rewrite !lookup_insert_ne by assumption. apply IH.
Qed.

Lemma resume_block_run `{PyFormat} (w : World) a n :
  resume_block w a n = resume_outcome w a n.
Proof.
  unfold resume_block, resume_outcome, getattr, checkpoint_file, torch_load.
  destruct (a !! "resume") as [r|]; [| reflexivity].
  simpl. unfold bind at 1. simpl.
  destruct (truthy r); [| reflexivity].
  destruct r; try reflexivity;
    unfold bind; simpl;
    (destruct (files w _) as [ck|]; [| reflexivity]);
    simpl; destruct (ckpt_args ck); reflexivity.
Qed.

(** C4 (corrected), the claim as stated fails: the checkpoint under
    [runs/old] stores no [tau], so after the resume block [tau] still holds
    its command-line value, and [resume] is not the only field that does. *)
Lemma only_resume_kept_counterexample :
  let a := parsed_args resume_world in
  let a' := apply_saved_args old_saved a in
  cli_args resume_world 0%nat = Ok a ∧
  res (@resume_block sample_format resume_world a 0%nat) =
    Ok (a', Some old_checkpoint, Some (PathOf "runs/old")) ∧
  ckpt_args old_checkpoint = Some old_saved ∧
  ¬ (∀ k, k ≠ "resume" → is_Some (a !! k) → a' !! k = old_saved !! k).
Proof.
  assert (parsed_args resume_world !! "resume" = Some (VStr "runs/old"))
    as Hr by (vm_compute; reflexivity).
  assert (parsed_args resume_world !! "tau" = Some (VFloat 0.5))
    as Htau by (vm_compute; reflexivity).
  split; [apply cli_args_parsed; vm_compute; reflexivity |].
  split; [| split; [reflexivity |]].
  - rewrite resume_block_run. unfold resume_outcome. rewrite Hr.
    reflexivity.
  - intros Hall. specialize (Hall "tau").
    rewrite apply_saved_args_lookup, Htau in Hall.
    assert (Some (VFloat 0.5) = None) as Habs; [| discriminate Habs].
    apply Hall; [discriminate | eexists; reflexivity].
Qed.

(** C4 (corrected), as amended: when [args.resume] is set (not empty) and
    the resume block completes, every argument the checkpoint stores, except
    [resume], has replaced the parsed value, [resume] keeps its command-line
    value, and so does every argument the checkpoint does not store; when
    [args.resume] is not set the block changes nothing and does nothing. *)
Theorem resume_overwrites_saved_args `{PyFormat} (w : World) a n r :
  a !! "resume" = Some r →
  (truthy r = false → resume_block w a n = MkOut [] n (Ok (a, None, None))) ∧
  (truthy r = true →
   ∀ a' c od, res (resume_block w a n) = Ok (a', c, od) →
     ∃ ck saved,
       c = Some ck ∧ ckpt_args ck = Some saved ∧
       (∀ k v, k ≠ "resume" → saved !! k = Some v → a' !! k = Some v) ∧
       a' !! "resume" = Some r ∧
       (∀ k, saved !! k = None → a' !! k = a !! k)).
Proof.
  intros Hr. rewrite resume_block_run. unfold resume_outcome. rewrite Hr.
  split; intros Ht; rewrite Ht; [reflexivity |].
  intros a' c od Hres.
  destruct (as_path r) as [dir|]; [| discriminate].
  destruct (files w (checkpoint_file dir)) as [ck|]; [| discriminate].
  destruct (ckpt_args ck) as [saved|] eqn:Hsaved; [| discriminate].
  simpl in Hres. injection Hres as <- <- <-.
  exists ck, saved. split; [reflexivity |]. split; [exact Hsaved |].
  split; [| split].
  - intros k v Hk Hv. rewrite apply_saved_args_lookup, Hv.
    destruct (decide (k = "resume")); [contradiction | reflexivity].
  - rewrite apply_saved_args_lookup. simpl. exact Hr.
  - intros k Hk. rewrite apply_saved_args_lookup, Hk.
    destruct (decide (k = "resume")); reflexivity.
Qed.

(** ** The first lines, run step by step *)

Lemma bind_run_Ok {A B} (m : M A) (k : A → M B) n evs n' a :
  m n = MkOut evs n' (Ok a) →
  bind m k n =
  MkOut (evs ++ events (k a n')) (fresh (k a n')) (res (k a n')).
Proof. intros Hm. unfold bind. rewrite Hm. destruct (k a n'); reflexivity. Qed.

Lemma bind_run_Raise {A B} (m : M A) (k : A → M B) n evs n' e :
  m n = MkOut evs n' (Raise e) → bind m k n = MkOut evs n' (Raise e).
Proof. intros Hm. unfold bind. rewrite Hm. reflexivity. Qed.

Lemma build_parser_run n :
  build_parser n = MkOut parser_trace n (Ok registered_actions).
Proof. reflexivity. Qed.

Lemma parse_args_run (w : World) n :
  parse_args w registered_actions n = MkOut [EvParseArgs] n (cli_args w n).
Proof.
  unfold cli_args. rewrite (bind_run_Ok _ _ _ _ _ _ (build_parser_run n)).
  cbn [res]. unfold parse_args.
  destruct (cli w) as [code|given]; [reflexivity |].
  destruct (accepts registered_actions given); reflexivity.
Qed.

Lemma check_imputeronly_run a n :
  check_imputeronly a n = MkOut [] n (res (check_imputeronly a n)).
Proof.
  unfold check_imputeronly, getattr.
  destruct (a !! "imputeronly") as [v|]; [| reflexivity].
  unfold bind, ret, raise.
  destruct (truthy v); [| reflexivity].
  destruct (a !! "pretrain") as [p|]; [| reflexivity].
  destruct (is_none p); reflexivity.
Qed.

Lemma resume_block_fresh `{PyFormat} (w : World) a n :
  fresh (resume_block w a n) = n.
Proof.
  rewrite resume_block_run. unfold resume_outcome.
  repeat match goal with
         | |- context [match ?x with _ => _ end] => destruct x
         end; reflexivity.
Qed.

Lemma setup_run `{PyFormat} (w : World) n a :
  cli_args w n = Ok a →
  setup w n =
  MkOut (parser_trace ++ EvParseArgs :: events (resume_block w a n)) n
        match res (resume_block w a n) with
        | Ok r =>
            match res (check_imputeronly (fst (fst r)) n) with
            | Ok _ => Ok r
            | Raise e => Raise e
            end
        | Raise e => Raise e
        end.
Proof.
  intros Ha. unfold setup.
  rewrite (bind_run_Ok _ _ _ _ _ _ (build_parser_run n)).
  pose proof (parse_args_run w n) as Hp. rewrite Ha in Hp.
  rewrite (bind_run_Ok _ _ _ _ _ _ Hp).
  pose proof (resume_block_fresh w a n) as Hf.
  destruct (resume_block w a n) as [evs n' [r|e]] eqn:Hrb;
    cbn [fresh] in Hf; subst n'; cbn [res events].
  - rewrite (bind_run_Ok _ _ _ _ _ _ Hrb). cbv beta.
    pose proof (check_imputeronly_run (fst (fst r)) n) as Hc.
    destruct (res (check_imputeronly (fst (fst r)) n)) as [[]|e].
    + rewrite (bind_run_Ok _ _ _ _ _ _ Hc). cbn [events res fresh ret].
      rewrite !app_nil_r. reflexivity.
    + rewrite (bind_run_Raise _ _ _ _ _ _ Hc). cbn [events res fresh].
      rewrite !app_nil_r. reflexivity.
  - rewrite (bind_run_Raise _ _ _ _ _ _ Hrb). reflexivity.
Qed.

Lemma setup_Raise `{PyFormat} (w : World) n e :
  cli_args w n = Raise e → res (setup w n) = Raise e.
Proof.
  intros Ha. unfold setup.
  rewrite (bind_run_Ok _ _ _ _ _ _ (build_parser_run n)).
  pose proof (parse_args_run w n) as Hp. rewrite Ha in Hp.
  rewrite (bind_run_Raise _ _ _ _ _ _ Hp). reflexivity.
Qed.

Lemma setup_Ok `{PyFormat} (w : World) n r :
  res (setup w n) = Ok r →
  ∃ a, cli_args w n = Ok a ∧
       res (resume_block w a n) = Ok r ∧
       events (setup w n) =
         parser_trace ++ EvParseArgs :: events (resume_block w a n).
Proof.
  intros Hr. destruct (cli_args w n) as [a|e] eqn:Ha.
  - exists a. split; [reflexivity |].
    rewrite (setup_run w n a Ha) in Hr |- *. cbn [res events] in *.
    split; [| reflexivity].
    destruct (res (resume_block w a n)) as [r'|]; [| discriminate].
    destruct (res (check_imputeronly _ n)); [| discriminate].
    exact Hr.
  - rewrite (setup_Raise w n e Ha) in Hr. discriminate.
Qed.

(** ** Who loads the checkpoint *)






(** ** The run name *)

Lemma append_assoc (s1 s2 s3 : string) :
  (s1 +:+ s2) +:+ s3 = s1 +:+ s2 +:+ s3.
Proof.
  induction s1 as [|c s1 IH]; [reflexivity |].
  change (String c ((s1 +:+ s2) +:+ s3) = String c (s1 +:+ s2 +:+ s3)).
  rewrite IH. reflexivity.
Qed.

Lemma build_path_Ok `{PyFormat} (w : World) a ms n p :
  res (build_path w a ms n) = Ok p →
  ∃ prefix tau maskgen alpha beta gamma,
    a !! "prefix" = Some prefix ∧
    a !! "tau" ≫= format_g = Some tau ∧
    a !! "maskgen" = Some maskgen ∧
    a !! "alpha" ≫= format_g = Some alpha ∧
    a !! "beta" ≫= format_g = Some beta ∧
    a !! "gamma" ≫= format_g = Some gamma ∧
    p = py_str prefix +:+ "_" +:+ clock w +:+ "_" +:+
        String.concat "_"
          [ "tau_" +:+ tau;
            "maskgen_" +:+ py_str maskgen;
            "coef_" +:+ alpha +:+ "_" +:+ beta +:+ "_" +:+ gamma;
            ms ].
Proof.
  intros Hp. unfold build_path in Hp.
  apply res_bind_Ok in Hp. destruct Hp as (prefix & Hprefix & Hp).
  apply res_bind_Ok in Hp. destruct Hp as (stamp & Hstamp & Hp).
  apply res_bind_Ok in Hp. destruct Hp as (tau & Htau & Hp).
  apply res_bind_Ok in Hp. destruct Hp as (tau' & Htau' & Hp).
  apply res_bind_Ok in Hp. destruct Hp as (maskgen & Hmaskgen & Hp).
  apply res_bind_Ok in Hp. destruct Hp as (alpha & Halpha & Hp).
  apply res_bind_Ok in Hp. destruct Hp as (alpha' & Halpha' & Hp).
  apply res_bind_Ok in Hp. destruct Hp as (beta & Hbeta & Hp).
  apply res_bind_Ok in Hp. destruct Hp as (beta' & Hbeta' & Hp).
  apply res_bind_Ok in Hp. destruct Hp as (gamma & Hgamma & Hp).
  apply res_bind_Ok in Hp. destruct Hp as (gamma' & Hgamma' & Hp).
  apply getattr_Ok in Hprefix, Htau, Hmaskgen, Halpha, Hbeta, Hgamma.
  apply fmt_g_Ok in Htau', Halpha', Hbeta', Hgamma'.
  injection Hstamp as <-. injection Hp as <-.
  exists prefix, tau', maskgen, alpha', beta', gamma'.
  rewrite Htau, Halpha, Hbeta, Hgamma. simpl.
  repeat split; assumption.
Qed.

Lemma eq_zero_truthy v : eq_zero v = true → truthy v = false.
Proof.
  destruct v as [|b|z|f|s|x y|p|o]; simpl; try discriminate.
  - destruct b; [discriminate | reflexivity].
  - intros ->. reflexivity.
  - intros ->. reflexivity.
Qed.

Lemma choose_mask_str_spec `{PyFormat} (a : Namespace) m op oph bl0 n ms :
  a !! "mask" = Some m →
  a !! "obs_prob" = Some op →
  a !! "obs_prob_high" = Some oph →
  a !! "block_len" = Some bl0 →
  res (choose_mask_str m op oph (if eq_zero bl0 then VNone else bl0) n)
    = Ok ms →
  spec_mask_str a = Some ms.
Proof.
  intros Hm Hop Hoph Hbl Hms.
  unfold spec_mask_str. rewrite Hm. simpl.
  unfold choose_mask_str in Hms.
  destruct (eq_str m "indep").
  - rewrite Hop, Hoph. simpl.
    destruct (is_none oph).
    + apply res_bind_Ok in Hms. destruct Hms as (lo & Hlo & Hms).
      apply fmt_g_Ok in Hlo. rewrite Hlo. simpl.
      injection Hms as <-. reflexivity.
    + apply res_bind_Ok in Hms. destruct Hms as (lo & Hlo & Hms).
      apply res_bind_Ok in Hms. destruct Hms as (hi & Hhi & Hms).
      apply fmt_g_Ok in Hlo, Hhi. rewrite Hlo, Hhi. simpl.
      injection Hms as <-. reflexivity.
  - destruct (eq_str m "block"); [| discriminate].
    rewrite Hbl. cbn [mbind option_bind]. cbn [ret res] in Hms.
    injection Hms as <-.
    destruct (eq_zero bl0) eqn:Hz.
    + rewrite (eq_zero_truthy _ Hz). reflexivity.
    + destruct (truthy bl0); reflexivity.
Qed.

Lemma is_absolute_append s t :
  is_absolute (s +:+ "_" +:+ t) = is_absolute s.
Proof. destruct s; reflexivity. Qed.

Lemma choose_output_dir_fresh_run (a : Namespace) p od0 n r od :
  a !! "resume" = Some r →
  truthy r = false →
  res (choose_output_dir a p od0 n) = Ok od →
  od = Some (if is_absolute p then PathOf p
             else PathDiv (PathDiv (PathOf "results") "celeba") p).
Proof.
  intros Hr Ht Hod. unfold choose_output_dir in Hod.
  rewrite (bind_run_Ok _ _ _ _ _ _ (getattr_Some a "resume" n r Hr)) in Hod.
  cbv beta in Hod. rewrite Ht in Hod. simpl in Hod.
  injection Hod as <-. reflexivity.
Qed.

(** C5 (corrected), the claim as stated fails: with [--prefix /tmp/x] the
    run is not resumed and its name starts at the root, so
    [Path('results') / 'celeba' / path] is the path [/tmp/x_...] itself and
    not a directory under [results/celeba]. *)
Lemma run_name_absolute_prefix_counterexample :
  match res (@prelude sample_format absolute_prefix_world 0%nat) with
  | Ok l =>
      args l !! "resume" = Some VNone ∧
      path l =
        "/tmp/x_1104.101500_tau_0.5_maskgen_fusion_coef_0.1_0.1_0_block_48" ∧
      output_dir l = Some (PathOf (path l)) ∧
      output_dir l ≠
        Some (PathDiv (PathDiv (PathOf "results") "celeba") (path l))
  | Raise _ => False
  end.
Proof. vm_compute. repeat split; [reflexivity .. | discriminate]. Qed.

(** C5 (corrected), as amended: whenever [main] gets to build its run name,
    the name is
    [{prefix}_{timestamp}_tau_{tau:g}_maskgen_{maskgen}_coef_{alpha:g}_{beta:g}_{gamma:g}_{mask_str}],
    where [mask_str] for [block] is [block_{block_len}] when [block_len] is
    truthy and [block_varsize] when it is 0 or [None]; and when not
    resuming, the output directory is [Path('results') / 'celeba' / name]:
    the directory of that name under [results/celeba], except that a prefix
    starting with [/] makes the name an absolute path, which is then the
    output directory itself. *)
Theorem run_name_as_specified `{PyFormat} (w : World) n l :
  res (prelude w n) = Ok l →
  spec_run_name (args l) (clock w) = Some (path l) ∧
  (∀ r prefix,
     args l !! "resume" = Some r → truthy r = false →
     args l !! "prefix" = Some prefix →
     output_dir l =
       Some (if is_absolute (py_str prefix) then PathOf (path l)
             else PathDiv (PathDiv (PathOf "results") "celeba") (path l))).
Proof.
  intros Hl.
  destruct (prelude_Ok w n l Hl)
    as (od0 & bl0 & n1 & n2 & n3 & n4 &
        _ & Hm & Hop & Hoph & Hbl & Hbl' & _ & Hms & Hp & Hod).
  destruct (build_path_Ok w _ _ _ _ Hp)
    as (prefix & tau & maskgen & alpha & beta & gamma &
        Hprefix & Htau & Hmaskgen & Halpha & Hbeta & Hgamma & Hpath).
  split.
  - rewrite Hbl' in Hms.
    assert (spec_mask_str (args l) = Some (mask_str l)) as Hspec
      by (eapply choose_mask_str_spec; eauto).
    unfold spec_run_name.
    rewrite Hprefix, Htau, Hmaskgen, Halpha, Hbeta, Hgamma, Hspec, Hpath.
    simpl. f_equal. f_equal.
    rewrite !append_assoc. simpl. reflexivity.
  - intros r prefix' Hr Ht Hprefix'.
    assert (prefix' = prefix) as -> by congruence.
    rewrite (choose_output_dir_fresh_run _ _ _ _ _ _ Hr Ht Hod).
    rewrite Hpath at 1. rewrite is_absolute_append. reflexivity.
Qed.

(** ** The two validations *)

Lemma safe_ret {A} (a : A) : safe (ret a).
Proof. intros n. discriminate. Qed.

Lemma safe_raise {A} e : e ≠ NotImplementedError → safe (@raise A e).
Proof. intros He n. simpl. congruence. Qed.

Lemma safe_bind {A B} (m : M A) (k : A → M B) :
  safe m → (∀ a, safe (k a)) → safe (bind m k).
Proof.
  intros Hm Hk n. rewrite res_bind.
  destruct (res (m n)) as [a|e] eqn:E; [apply Hk |].
  specialize (Hm n). rewrite E in Hm. congruence.
Qed.

Lemma safe_emit e : safe (emit e).
Proof. intros n. discriminate. Qed.

Lemma safe_global name : safe (global name).
Proof. intros n. unfold global. destruct (_ || _); discriminate. Qed.

Ltac safe_step :=
  first
    [ apply safe_ret
    | apply safe_raise; discriminate
    | apply safe_global
    | apply safe_emit
    | apply safe_bind; [| intros ?]
    | match goal with
      | |- safe (if ?b then _ else _) => destruct b
      | |- safe (match ?x with _ => _ end) => destruct x
      | |- safe (raise (match ?x with _ => _ end)) => destruct x
      end ].

Lemma build_path_safe `{PyFormat} (w : World) a ms : safe (build_path w a ms).
Proof. unfold build_path, now_stamp, fmt_g, getattr. repeat safe_step. Qed.

Lemma choose_output_dir_safe a p od : safe (choose_output_dir a p od).
Proof. unfold choose_output_dir, Path, print, getattr. repeat safe_step. Qed.

Lemma choose_mask_str_safe `{PyFormat} m op oph bl :
  eq_str m "indep" || eq_str m "block" = true →
  safe (choose_mask_str m op oph bl).
Proof.
  intros Hm. unfold choose_mask_str, fmt_g.
  destruct (eq_str m "indep"); [repeat safe_step |].
  destruct (eq_str m "block"); [repeat safe_step | discriminate].
Qed.

Lemma choose_mask_str_invalid `{PyFormat} m op oph bl n :
  eq_str m "indep" || eq_str m "block" = false →
  res (choose_mask_str m op oph bl n) = Raise NotImplementedError.
Proof.
  intros Hm. unfold choose_mask_str.
  destruct (eq_str m "indep"); [discriminate |].
  destruct (eq_str m "block"); [discriminate | reflexivity].
Qed.

Lemma choose_hard_sigmoid_run (a : Namespace) v n :
  a !! "maskgen" = Some v →
  choose_hard_sigmoid a n =
  MkOut [] n match spec_hard_sigmoid v with
             | Some hs => Ok hs
             | None => Raise NotImplementedError
             end.
Proof.
  intros Hv. unfold choose_hard_sigmoid, spec_hard_sigmoid, getattr.
  rewrite Hv. unfold bind, ret. simpl.
  destruct (eq_str v "sigmoid"); [reflexivity |].
  destruct (eq_str v "hardsigmoid"); [reflexivity |].
  destruct (eq_str v "fusion"); reflexivity.
Qed.

Lemma maskgen_ok_spec (a : Namespace) v :
  a !! "maskgen" = Some v →
  maskgen_ok a = false ↔ spec_hard_sigmoid v = None.
Proof.
  intros Hv. unfold maskgen_ok, spec_hard_sigmoid. rewrite Hv.
  destruct (eq_str v "sigmoid"), (eq_str v "hardsigmoid"),
    (eq_str v "fusion"); simpl; split; congruence.
Qed.

(** Every registered option is an attribute of the arguments [setup]
    returns. *)
Lemma cli_args_keys (w : World) n a k :
  cli_args w n = Ok a →
  is_Some (defaults registered_actions !! k) → is_Some (a !! k).
Proof.
  intros Ha Hk. pose proof (parse_args_run w n) as Hp.
  rewrite Ha in Hp. unfold parse_args in Hp.
  destruct (cli w) as [code|given]; [discriminate |].
  destruct (accepts registered_actions given); [| discriminate].
  injection Hp as <-. apply lookup_union_is_Some. right. exact Hk.
Qed.

Lemma setup_keys `{PyFormat} (w : World) n a c od k :
  res (setup w n) = Ok (a, c, od) →
  is_Some (defaults registered_actions !! k) → is_Some (a !! k).
Proof.
  intros Hs Hk. apply setup_Ok in Hs. destruct Hs as (a0 & Ha0 & Hrb & _).
  pose proof (cli_args_keys w n a0 k Ha0 Hk) as Hk0.
  rewrite resume_block_run in Hrb. unfold resume_outcome in Hrb.
  destruct (a0 !! "resume") as [r|]; [| discriminate].
  destruct (truthy r).
  - destruct (as_path r) as [dir|]; [| discriminate].
    destruct (files w (checkpoint_file dir)) as [ck|]; [| discriminate].
    destruct (ckpt_args ck) as [saved|]; [| discriminate].
    injection Hrb as <- _ _. rewrite apply_saved_args_lookup.
    destruct (decide (k = "resume")); [exact Hk0 |].
    destruct (saved !! k); [eauto | exact Hk0].
  - injection Hrb as <- _ _. exact Hk0.
Qed.

(** C7 (corrected), the claim as stated fails: with
    [--imputeronly --maskgen foo] the value of [args.maskgen] is none of the
    three accepted ones, yet [main] ends with the [AssertionError] of line
    78, not with [NotImplementedError]. *)
Lemma validation_iff_counterexample :
  let a := parsed_args imputeronly_world in
  cli_args imputeronly_world 0%nat = Ok a ∧
  a !! "maskgen" = Some (VStr "foo") ∧
  res (@main sample_format imputeronly_world 0%nat) = Raise AssertionError ∧
  ¬ (res (@main sample_format imputeronly_world 0%nat)
       = Raise NotImplementedError ↔
     maskgen_ok a = false ∨ mask_ok a = false).
Proof.
  split; [apply cli_args_parsed; vm_compute; reflexivity |].
  split; [vm_compute; reflexivity |].
  split; [vm_compute; reflexivity |].
  intros [_ Hback].
  assert (res (@main sample_format imputeronly_world 0%nat)
          = Raise NotImplementedError) as Habs.
  { apply Hback. left. vm_compute. reflexivity. }
  vm_compute in Habs. discriminate Habs.
Qed.

(** C7 (corrected), as amended: in a run that gets past line 78 (the command
    line is accepted, the checkpoint, if any, is loaded and the
    [imputeronly] assertion holds), [main] raises [NotImplementedError] if
    and only if [args.maskgen] is none of ['sigmoid'], ['hardsigmoid'],
    ['fusion'] or [args.mask] is none of ['indep'], ['block']; it does so
    before anything is constructed; otherwise [hard_sigmoid] is [False],
    [True] or [(-0.1, 1.1)] respectively, and that is the value line 130
    passes to [ConvMaskGenerator]. *)
Theorem validation_raises_NotImplementedError `{PyFormat} (w : World)
    n a c od :
  res (setup w n) = Ok (a, c, od) →
  (res (main w n) = Raise NotImplementedError ↔
   maskgen_ok a = false ∨ mask_ok a = false) ∧
  (res (main w n) = Raise NotImplementedError →
   count_events is_construction (events (main w n)) = 0%nat) ∧
  (∀ l, res (prelude w n) = Ok l →
     ∃ maskgen,
       a !! "maskgen" = Some maskgen ∧
       spec_hard_sigmoid maskgen = Some (hard_sigmoid l) ∧
       ∀ k, In ("ConvMaskGenerator", [("hard_sigmoid", hard_sigmoid l)])
               (constructed (events (wire_modules w (hard_sigmoid l) k)))).
Proof.
  intros Hs.
  destruct (setup_keys w n a c od "mask" Hs) as [m Hm];
    [vm_compute; eauto |].
  destruct (setup_keys w n a c od "obs_prob" Hs) as [op Hop];
    [vm_compute; eauto |].
  destruct (setup_keys w n a c od "obs_prob_high" Hs) as [oph Hoph];
    [vm_compute; eauto |].
  destruct (setup_keys w n a c od "block_len" Hs) as [bl Hbl];
    [vm_compute; eauto |].
  destruct (setup_keys w n a c od "maskgen" Hs) as [v Hv];
    [vm_compute; eauto |].
  split; [| split].
  - assert (res (prelude w n) = Raise NotImplementedError ↔
            maskgen_ok a = false ∨ mask_ok a = false) as Hprelude.
    { unfold prelude. rewrite (res_bind_step _ _ _ _ Hs). cbv beta iota.
      set (n' := fresh (setup w n)).
      rewrite (bind_run_Ok _ _ _ _ _ _ (getattr_Some a "mask" n' m Hm)).
      cbv beta. cbn [res].
      rewrite (bind_run_Ok _ _ _ _ _ _ (getattr_Some a "obs_prob" n' op Hop)).
      cbv beta. cbn [res].
      rewrite (bind_run_Ok _ _ _ _ _ _
                 (getattr_Some a "obs_prob_high" n' oph Hoph)).
      cbv beta. cbn [res].
      rewrite (bind_run_Ok _ _ _ _ _ _ (getattr_Some a "block_len" n' bl Hbl)).
      cbv beta. cbn [res].
      rewrite res_bind. cbn [res ret fresh].
      rewrite res_bind, (choose_hard_sigmoid_run a v n' Hv). cbn [res fresh].
      pose proof (maskgen_ok_spec a v Hv) as Hok.
      unfold mask_ok. rewrite Hm.
      destruct (spec_hard_sigmoid v) as [hs|].
      - destruct (eq_str m "indep" || eq_str m "block") eqn:Hmask.
        + split.
          * intros Habs. exfalso. revert Habs.
            apply safe_bind; [apply choose_mask_str_safe, Hmask |].
            intros ms. apply safe_bind; [apply build_path_safe |].
            intros p. apply safe_bind; [apply choose_output_dir_safe |].
            intros od'. apply safe_ret.
          * intros [Habs | Habs]; [| discriminate].
            apply Hok in Habs. discriminate.
        + split; [auto |]. intros _.
          apply res_bind_Raise, choose_mask_str_invalid, Hmask.
      - split; [| reflexivity]. intros _. left. apply Hok. reflexivity. }
    split.
    + intros Hmain. apply Hprelude.
      destruct (res (prelude w n)) as [l|e] eqn:Hl.
      * destruct (prelude_then_NameError w n l Hl) as (name & _ & Hres & _).
        rewrite Hres in Hmain. discriminate.
      * unfold main in Hmain. rewrite (res_bind_Raise _ _ _ _ Hl) in Hmain.
        congruence.
    + intros Hbad. apply Hprelude in Hbad.
      unfold main. apply res_bind_Raise. exact Hbad.
  - intros _. apply count_events_quiet. rewrite main_events.
    eapply Forall_impl; [apply prelude_alphabet |].
    intros e. destruct e; unfold within, quiet; simpl; intros [?|?];
      congruence.
  - intros l Hl.
    destruct (prelude_Ok w n l Hl)
      as (od0 & bl0 & n1 & n2 & n3 & n4 & Hs' & _ & _ & _ & _ & _ & Hhs & _).
    rewrite Hs in Hs'. injection Hs' as Ha _ _. rewrite <- Ha in Hhs.
    exists v. split; [exact Hv |].
    rewrite (choose_hard_sigmoid_run a v n1 Hv) in Hhs.
    cbn [res] in Hhs.
    split.
    + destruct (spec_hard_sigmoid v); [congruence | discriminate].
    + intros k. rewrite wire_modules_run. cbn [events].
      simpl. right. left. reflexivity.
Qed.

(** ** The theorems at work on sample runs *)

(** A default run reaches the dataset line with [mask = 'block'] and ends
    there. *)
Lemma main_never_reaches_witness :
  match res (@prelude sample_format default_world 0%nat) with
  | Ok l =>
      eq_str (mask l) "block" = true ∧
      res (@main sample_format default_world 0%nat) =
        Raise (NameError "BlockMaskedCelebA")
  | Raise _ => False
  end.
Proof.
  assert (match res (@prelude sample_format default_world 0%nat) with
          | Ok l => eq_str (mask l) "indep" = false
          | Raise _ => False
          end) as F by (vm_compute; reflexivity).
  destruct (@main_never_reaches_misgan_impute sample_format default_world
              0%nat) as (_ & Hreach & _ & _).
  destruct (res (@prelude sample_format default_world 0%nat)) as [l|e];
    [| exact F].
  destruct (Hreach l eq_refl) as [[Hi _] | Hb]; [congruence | exact Hb].
Defined.


(** Resumed from [runs/old]: [mask] comes from the checkpoint, [resume] and
    [tau], which the checkpoint does not overwrite, from the command line. *)
Lemma resume_overwrites_witness :
  parsed_args resume_world !! "resume" = Some (VStr "runs/old") ∧
  match res (@resume_block sample_format resume_world
               (parsed_args resume_world) 0%nat) with
  | Ok (a', c, _) =>
      c = Some old_checkpoint ∧
      a' !! "mask" = Some (VStr "indep") ∧
      a' !! "resume" = Some (VStr "runs/old") ∧
      a' !! "tau" = parsed_args resume_world !! "tau"
  | Raise _ => False
  end.
Proof.
  assert (parsed_args resume_world !! "resume" = Some (VStr "runs/old"))
    as Hr by (vm_compute; reflexivity).
  assert (match res (@resume_block sample_format resume_world
                       (parsed_args resume_world) 0%nat) with
          | Ok (_, c, _) => c = Some old_checkpoint
          | Raise _ => False
          end) as F.
  { rewrite resume_block_run. unfold resume_outcome. rewrite Hr.
    reflexivity. }
  split; [exact Hr |].
  destruct (@resume_overwrites_saved_args sample_format resume_world
              (parsed_args resume_world) 0%nat _ Hr) as [_ Hyes].
  destruct (res (@resume_block sample_format resume_world
                   (parsed_args resume_world) 0%nat))
    as [[[a' c] od]|e]; [| exact F].
  destruct (Hyes eq_refl a' c od eq_refl)
    as (ck & saved & Hc & Hsaved & Hover & Hresume & Hkeep).
  rewrite F in Hc. injection Hc as <-. injection Hsaved as <-.
  split; [exact F |]. split; [| split].
  - apply Hover; [discriminate | vm_compute; reflexivity].
  - exact Hresume.
  - apply Hkeep. vm_compute. reflexivity.
Defined.

(** The default run is called
    [impute_<stamp>_tau_0.5_maskgen_fusion_coef_0.1_0.1_0_block_48] and
    writes under [results/celeba]. *)
Lemma run_name_witness :
  match res (@prelude sample_format default_world 0%nat) with
  | Ok l =>
      @spec_run_name sample_format (args l) (clock default_world)
        = Some (path l) ∧
      path l =
        "impute_1104.101500_tau_0.5_maskgen_fusion_coef_0.1_0.1_0_block_48" ∧
      output_dir l =
        Some (PathDiv (PathDiv (PathOf "results") "celeba") (path l))
  | Raise _ => False
  end.
Proof.
  assert (match res (@prelude sample_format default_world 0%nat) with
          | Ok l =>
              args l !! "resume" = Some VNone ∧
              args l !! "prefix" = Some (VStr "impute") ∧
              path l =
                "impute_1104.101500_tau_0.5_maskgen_fusion_coef_0.1_0.1_0_block_48"
          | Raise _ => False
          end) as F by (vm_compute; repeat split; reflexivity).
  pose proof (@run_name_as_specified sample_format default_world 0%nat) as T.
  destruct (res (@prelude sample_format default_world 0%nat)) as [l|e];
    [| exact F].
  destruct F as (Hr & Hpf & Hp).
  destruct (T l eq_refl) as [Hname Hdir].
  split; [exact Hname |]. split; [exact Hp |].
  apply (Hdir VNone (VStr "impute") Hr eq_refl Hpf).
Defined.

(** [--maskgen foo] ends with [NotImplementedError]. *)
Lemma validation_witness :
  match res (@setup sample_format unknown_maskgen_world 0%nat) with
  | Ok (a, _, _) =>
      maskgen_ok a = false ∧
      res (@main sample_format unknown_maskgen_world 0%nat) =
        Raise NotImplementedError
  | Raise _ => False
  end.
Proof.
  assert (match res (@setup sample_format unknown_maskgen_world 0%nat) with
          | Ok (a, _, _) => maskgen_ok a = false
          | Raise _ => False
          end) as F by (vm_compute; reflexivity).
  pose proof (@validation_raises_NotImplementedError sample_format
                unknown_maskgen_world 0%nat) as T.
  destruct (res (@setup sample_format unknown_maskgen_world 0%nat))
    as [[[a c] od]|e]; [| exact F].
  split; [exact F |].
  destruct (T a c od eq_refl) as [Hiff _].
  apply Hiff. left. exact F.
Defined.

(** * Beyond the claims *)

(** ** The loop over the saved arguments *)

(** X1: the loop of lines 73-75 is a left-biased merge: the result is the
    saved arguments without [resume], laid over the parsed ones.  So no
    attribute is ever removed, and attributes only the checkpoint knows are
    added. *)
Theorem apply_saved_args_union (saved a : Namespace) :
  apply_saved_args saved a = delete "resume" saved ∪ a ∧
  dom (apply_saved_args saved a) = dom a ∪ (dom saved ∖ {["resume"]}).
Proof.
  assert (apply_saved_args saved a = delete "resume" saved ∪ a) as E.
  { apply map_eq. intros k.
    rewrite apply_saved_args_lookup, lookup_union, lookup_delete.
    destruct (decide (k = "resume")) as [->|Hk].
    - rewrite decide_True by reflexivity. destruct (a !! "resume"); reflexivity.
    - rewrite decide_False by congruence.
      destruct (saved !! k), (a !! k); reflexivity. }
  split; [exact E |].
  rewrite E, dom_union_L, dom_delete_L. apply union_comm_L.
Qed.

(** X2: resuming twice composes: applying the saved arguments [s1] and then
    [s2] is applying [s2] laid over [s1]; in particular applying the same
    checkpoint twice changes nothing more. *)
Theorem apply_saved_args_twice (s1 s2 a : Namespace) :
  apply_saved_args s2 (apply_saved_args s1 a) = apply_saved_args (s2 ∪ s1) a ∧
  apply_saved_args s1 (apply_saved_args s1 a) = apply_saved_args s1 a.
Proof.
  split; apply map_eq; intros k; rewrite !apply_saved_args_lookup.
  - rewrite lookup_union.
    destruct (decide (k = "resume")); [reflexivity |].
    destruct (s2 !! k), (s1 !! k); reflexivity.
  - destruct (decide (k = "resume")); [reflexivity |].
    destruct (s1 !! k); reflexivity.
Qed.

(** ** The networks handed on *)

(** X3: the six networks the construction block leaves in its locals are
    six different objects (the two 3-channel critics are not shared), they
    are exactly the objects moved to the device, each once and all to the
    same one, ['cuda'] when CUDA is available and ['cpu'] otherwise; the
    imputer is the object [UNetImputer()] returned, the five others are the
    [DataParallel] wrappers of the objects their classes returned. *)
Theorem wired_nets_distinct_and_moved (w : World) hs n :
  ∃ nets,
    res (wire_modules w hs n) = Ok nets ∧
    let six := [ data_gen nets; mask_gen nets; imputer nets;
                 data_critic nets; mask_critic nets; impu_critic nets ] in
    let evs := events (wire_modules w hs n) in
    NoDup six ∧
    moved evs = map (λ o, (o, if use_cuda w then "cuda" else "cpu")) six ∧
    map snd (wrapped evs) =
      [ data_gen nets; mask_gen nets;
        data_critic nets; mask_critic nets; impu_critic nets ] ∧
    map fst (wrapped evs) ++ [imputer nets] ≡ₚ created evs.
Proof.
  exists (wired_nets n). rewrite wire_modules_run. cbn [res events].
  split; [reflexivity |]. cbv zeta. split; [| split; [| split]].
  - unfold wired_nets. cbn [data_gen mask_gen imputer data_critic mask_critic
                            impu_critic].
    repeat (apply NoDup_cons; split;
            [ rewrite ?not_elem_of_cons; repeat split;
              first [ intros Heq; injection Heq; lia
                    | apply not_elem_of_nil ]
            | ]).
    apply NoDup_nil_2.
  - reflexivity.
  - reflexivity.
  - unfold wiring_trace, wired_nets, wrapped, created. simpl.
    do 2 apply Permutation_skip. symmetry.
    apply (Permutation_cons_append [_; _; _]).
Qed.

(** ** Blocks that emit nothing *)

Lemma silent_run {A} (m : M A) n : silent m → m n = MkOut [] n (res (m n)).
Proof.
  intros Hm. destruct (Hm n) as [He Hf]. destruct (m n) as [evs n' r].
  cbn [events fresh res] in *. subst. reflexivity.
Qed.

Lemma silent_ret {A} (a : A) : silent (ret a).
Proof. intros n. split; reflexivity. Qed.

Lemma silent_raise {A} e : silent (@raise A e).
Proof. intros n. split; reflexivity. Qed.

Lemma silent_global name : silent (global name).
Proof. intros n. unfold global. destruct (_ || _); split; reflexivity. Qed.

Lemma silent_bind {A B} (m : M A) (k : A → M B) :
  silent m → (∀ a, silent (k a)) → silent (bind m k).
Proof.
  intros Hm Hk n. unfold bind. rewrite (silent_run m n Hm).
  destruct (res (m n)) as [a|e]; [| split; reflexivity].
  rewrite (silent_run (k a) n (Hk a)). split; reflexivity.
Qed.

Ltac silent_step :=
  first
    [ apply silent_ret
    | apply silent_raise
    | apply silent_global
    | apply silent_bind; [| intros ?]
    | match goal with
      | |- silent (if ?b then _ else _) => destruct b
      | |- silent (match ?x with _ => _ end) => destruct x
      end ].

Lemma choose_mask_str_silent `{PyFormat} m op oph bl :
  silent (choose_mask_str m op oph bl).
Proof. unfold choose_mask_str, fmt_g. repeat silent_step. Qed.

Lemma build_path_run `{PyFormat} (w : World) a ms n pf :
  a !! "prefix" = Some pf →
  build_path w a ms n = MkOut [EvNow] n (res (build_path w a ms n)).
Proof.
  intros Hpf. unfold build_path.
  rewrite !(bind_run_Ok _ _ _ _ _ _ (getattr_Some a "prefix" n pf Hpf)).
  cbv beta.
  assert (now_stamp w n = MkOut [EvNow] n (Ok (clock w))) as Hnow
    by reflexivity.
  rewrite !(bind_run_Ok _ _ _ _ _ _ Hnow). cbv beta.
  match goal with
  | |- context [res (?rest n)] =>
      assert (silent rest) as Hrest
        by (unfold fmt_g, getattr; repeat silent_step);
      rewrite (silent_run rest n Hrest)
  end.
  reflexivity.
Qed.

Lemma choose_output_dir_run (a : Namespace) p od n r :
  a !! "resume" = Some r →
  choose_output_dir a p od n =
  if truthy r then MkOut [] n (Ok od)
  else
    let out := path_div (PathDiv (PathOf "results") "celeba") p in
    MkOut [EvPrint (VPath out)] n (Ok (Some out)).
Proof.
  intros Hr. unfold choose_output_dir.
  rewrite (bind_run_Ok _ _ _ _ _ _ (getattr_Some a "resume" n r Hr)).
  cbv beta. destruct (truthy r); reflexivity.
Qed.

Lemma prepend_nil {A} (o : Out A) : prepend [] o = o.
Proof. destruct o. reflexivity. Qed.

Lemma bind_prepend {A B} (m : M A) (k : A → M B) n evs n' a :
  m n = MkOut evs n' (Ok a) → bind m k n = prepend evs (k a n').
Proof. apply bind_run_Ok. Qed.

(** Lines 80-117 after a completed [setup], in one equation. *)
Lemma prelude_run `{PyFormat} (w : World) n evs a c od m op oph bl0 v pf r :
  setup w n = MkOut evs n (Ok (a, c, od)) →
  a !! "mask" = Some m →
  a !! "obs_prob" = Some op →
  a !! "obs_prob_high" = Some oph →
  a !! "block_len" = Some bl0 →
  a !! "maskgen" = Some v →
  a !! "prefix" = Some pf →
  a !! "resume" = Some r →
  prelude w n = prepend evs (validated_outcome w a c od m op oph bl0 v r n).
Proof.
  intros Hs Hm Hop Hoph Hbl Hv Hpf Hr. unfold prelude.
  rewrite (bind_prepend _ _ _ _ _ _ Hs). f_equal. cbv beta iota.
  rewrite (bind_prepend _ _ _ _ _ _ (getattr_Some a "mask" n m Hm)),
    prepend_nil. cbv beta.
  rewrite (bind_prepend _ _ _ _ _ _ (getattr_Some a "obs_prob" n op Hop)),
    prepend_nil. cbv beta.
  rewrite (bind_prepend _ _ _ _ _ _
             (getattr_Some a "obs_prob_high" n oph Hoph)),
    prepend_nil. cbv beta.
  rewrite (bind_prepend _ _ _ _ _ _ (getattr_Some a "block_len" n bl0 Hbl)),
    prepend_nil. cbv beta.
  rewrite (bind_prepend (ret (if eq_zero bl0 then VNone else bl0)) _
             n [] n _ eq_refl),
    prepend_nil. cbv beta.
  unfold validated_outcome. cbv zeta.
  pose proof (choose_hard_sigmoid_run a v n Hv) as Hhs.
  destruct (spec_hard_sigmoid v) as [hs|].
  2: { rewrite (bind_run_Raise _ _ _ _ _ _ Hhs). reflexivity. }
  rewrite (bind_prepend _ _ _ _ _ _ Hhs), prepend_nil. cbv beta.
  pose proof (silent_run _ n
                (choose_mask_str_silent m op oph
                   (if eq_zero bl0 then VNone else bl0))) as Hms.
  destruct (res (choose_mask_str m op oph _ n)) as [ms|e].
  2: { rewrite (bind_run_Raise _ _ _ _ _ _ Hms). reflexivity. }
  rewrite (bind_prepend _ _ _ _ _ _ Hms), prepend_nil. cbv beta.
  pose proof (build_path_run w a ms n pf Hpf) as Hp.
  destruct (res (build_path w a ms n)) as [p|e].
  2: { rewrite (bind_run_Raise _ _ _ _ _ _ Hp). reflexivity. }
  rewrite (bind_prepend _ _ _ _ _ _ Hp). cbv beta.
  pose proof (choose_output_dir_run a p od n r Hr) as Hod.
  destruct (truthy r).
  - rewrite (bind_prepend _ _ _ _ _ _ Hod), prepend_nil. reflexivity.
  - rewrite (bind_prepend _ _ _ _ _ _ Hod). reflexivity.
Qed.

(** ** Every run, step by step *)

Lemma cli_args_exit (w : World) n e :
  cli_args w n = Raise e → ∃ code, e = SystemExit code.
Proof.
  intros Ha. pose proof (parse_args_run w n) as Hp. rewrite Ha in Hp.
  unfold parse_args in Hp.
  destruct (cli w) as [code|given].
  - injection Hp as <-. eauto.
  - destruct (accepts registered_actions given); [discriminate |].
    injection Hp as <-. eauto.
Qed.

Lemma setup_Raise_run `{PyFormat} (w : World) n e :
  cli_args w n = Raise e →
  setup w n = MkOut (parser_trace ++ [EvParseArgs]) n (Raise e).
Proof.
  intros Ha. unfold setup.
  rewrite (bind_run_Ok _ _ _ _ _ _ (build_parser_run n)).
  pose proof (parse_args_run w n) as Hp. rewrite Ha in Hp.
  rewrite (bind_run_Raise _ _ _ _ _ _ Hp). reflexivity.
Qed.

Lemma resume_block_keys `{PyFormat} (w : World) a n a' c od k :
  res (resume_block w a n) = Ok (a', c, od) →
  is_Some (a !! k) → is_Some (a' !! k).
Proof.
  intros Hrb Hk. rewrite resume_block_run in Hrb. unfold resume_outcome in Hrb.
  destruct (a !! "resume") as [r|]; [| discriminate].
  destruct (truthy r).
  - destruct (as_path r) as [dir|]; [| discriminate].
    destruct (files w (checkpoint_file dir)) as [ck|]; [| discriminate].
    destruct (ckpt_args ck) as [saved|]; [| discriminate].
    injection Hrb as <- _ _. rewrite apply_saved_args_lookup.
    destruct (decide (k = "resume")); [exact Hk |].
    destruct (saved !! k); [eauto | exact Hk].
  - injection Hrb as <- _ _. exact Hk.
Qed.

Lemma resume_block_resume `{PyFormat} (w : World) a n a' c od :
  res (resume_block w a n) = Ok (a', c, od) →
  a' !! "resume" = a !! "resume".
Proof.
  intros Hrb. rewrite resume_block_run in Hrb. unfold resume_outcome in Hrb.
  destruct (a !! "resume") as [r|] eqn:Hr; [| discriminate].
  destruct (truthy r).
  - destruct (as_path r) as [dir|]; [| discriminate].
    destruct (files w (checkpoint_file dir)) as [ck|]; [| discriminate].
    destruct (ckpt_args ck) as [saved|]; [| discriminate].
    injection Hrb as <- _ _. rewrite apply_saved_args_lookup. exact Hr.
  - injection Hrb as <- _ _. exact Hr.
Qed.

Lemma check_imputeronly_res (a : Namespace) n v p :
  a !! "imputeronly" = Some v →
  a !! "pretrain" = Some p →
  res (check_imputeronly a n) =
  if truthy v && is_none p then Raise AssertionError else Ok tt.
Proof.
  intros Hv Hp. unfold check_imputeronly, getattr. rewrite Hv, Hp.
  unfold bind, ret, raise.
  destruct (truthy v); [| reflexivity].
  destruct (is_none p); reflexivity.
Qed.

Lemma main_of_prelude_Raise `{PyFormat} (w : World) n evs n' e :
  prelude w n = MkOut evs n' (Raise e) → main w n = MkOut evs n' (Raise e).
Proof. intros Hp. unfold main. apply (bind_run_Raise _ _ _ _ _ _ Hp). Qed.

Lemma prelude_of_setup_Raise `{PyFormat} (w : World) n evs n' e :
  setup w n = MkOut evs n' (Raise e) → prelude w n = MkOut evs n' (Raise e).
Proof. intros Hs. unfold prelude. apply (bind_run_Raise _ _ _ _ _ _ Hs). Qed.

Lemma main_of_prelude_Ok `{PyFormat} (w : World) n evs n' l :
  prelude w n = MkOut evs n' (Ok l) →
  eq_str (mask l) "indep" || eq_str (mask l) "block" = true →
  main w n =
  MkOut evs n'
    (Raise (NameError (if eq_str (mask l) "indep"
                       then "IndepMaskedCelebA"
                       else "BlockMaskedCelebA"))).
Proof.
  intros Hp Hm. unfold main. rewrite (bind_run_Ok _ _ _ _ _ _ Hp). cbv beta.
  destruct (eq_str (mask l) "indep") eqn:Hi.
  - rewrite (bind_run_Raise _ _ _ _ _ _ (build_dataset_indep l n' Hi)).
    cbn [events fresh res]. rewrite app_nil_r. reflexivity.
  - rewrite (bind_run_Raise _ _ _ _ _ _ (build_dataset_block l n' Hi Hm)).
    cbn [events fresh res]. rewrite app_nil_r. reflexivity.
Qed.

Lemma validated_outcome_fresh `{PyFormat} (w : World) a c od m op oph bl0 v
    r n :
  fresh (validated_outcome w a c od m op oph bl0 v r n) = n.
Proof.
  unfold validated_outcome.
  repeat match goal with
         | |- context [match ?x with _ => _ end] => destruct x
         end; reflexivity.
Qed.

Lemma validated_outcome_mask `{PyFormat} (w : World) a c od m op oph bl0 v
    r n l :
  res (validated_outcome w a c od m op oph bl0 v r n) = Ok l →
  mask l = m ∧ eq_str m "indep" || eq_str m "block" = true.
Proof.
  unfold validated_outcome.
  destruct (spec_hard_sigmoid v); [| discriminate].
  destruct (res (choose_mask_str m op oph _ n)) as [ms|] eqn:Hms;
    [| discriminate].
  apply choose_mask_str_Ok in Hms.
  destruct (res (build_path w a ms n)); [| discriminate].
  destruct (truthy r); cbn [res]; intros Hl; injection Hl as <-;
    (split; [reflexivity |]);
    destruct Hms as [-> | ->]; auto using orb_true_r.
Qed.

(** The six attributes lines 80-113 read before anything can go wrong with
    the formatting. *)
Lemma registered_keys (a : Namespace) :
  (∀ k, is_Some (defaults registered_actions !! k) → is_Some (a !! k)) →
  ∃ m op oph bl0 v pf iv pt,
    a !! "mask" = Some m ∧ a !! "obs_prob" = Some op ∧
    a !! "obs_prob_high" = Some oph ∧ a !! "block_len" = Some bl0 ∧
    a !! "maskgen" = Some v ∧ a !! "prefix" = Some pf ∧
    a !! "imputeronly" = Some iv ∧ a !! "pretrain" = Some pt.
Proof.
  intros Hk.
  destruct (Hk "mask") as [m Hm]; [vm_compute; eauto |].
  destruct (Hk "obs_prob") as [op Hop]; [vm_compute; eauto |].
  destruct (Hk "obs_prob_high") as [oph Hoph]; [vm_compute; eauto |].
  destruct (Hk "block_len") as [bl0 Hbl]; [vm_compute; eauto |].
  destruct (Hk "maskgen") as [v Hv]; [vm_compute; eauto |].
  destruct (Hk "prefix") as [pf Hpf]; [vm_compute; eauto |].
  destruct (Hk "imputeronly") as [iv Hiv]; [vm_compute; eauto |].
  destruct (Hk "pretrain") as [pt Hpt]; [vm_compute; eauto |].
  exists m, op, oph, bl0, v, pf, iv, pt. repeat split; assumption.
Qed.

(** Lines 25-117 run symbolically: where they stop, with what, and what
    they have done by then. *)
Lemma prelude_outcome `{PyFormat} (w : World) n :
  match cli_args w n with
  | Raise e =>
      prelude w n = MkOut (parser_trace ++ [EvParseArgs]) n (Raise e) ∧
      ∃ code, e = SystemExit code
  | Ok a =>
      ∃ r, a !! "resume" = Some r ∧
      let rb := resume_outcome w a n in
      let T := parser_trace ++ EvParseArgs :: events rb in
      match res rb with
      | Raise e => prelude w n = MkOut T n (Raise e)
      | Ok (a', c, od) =>
          ∃ m op oph bl0 v pf iv pt,
            a' !! "mask" = Some m ∧ a' !! "obs_prob" = Some op ∧
            a' !! "obs_prob_high" = Some oph ∧ a' !! "block_len" = Some bl0 ∧
            a' !! "maskgen" = Some v ∧ a' !! "prefix" = Some pf ∧
            a' !! "imputeronly" = Some iv ∧ a' !! "pretrain" = Some pt ∧
            a' !! "resume" = Some r ∧
            if truthy iv && is_none pt
            then prelude w n = MkOut T n (Raise AssertionError)
            else
              let vo := validated_outcome w a' c od m op oph bl0 v r n in
              match res vo with
              | Raise e => prelude w n = MkOut (T ++ events vo) n (Raise e)
              | Ok l => prelude w n = MkOut (T ++ events vo) n (Ok l)
              end
      end
  end.
Proof.
  destruct (cli_args w n) as [a|e] eqn:Ha.
  2: { split; [| eapply cli_args_exit; eassumption].
       apply prelude_of_setup_Raise, setup_Raise_run. exact Ha. }
  destruct (cli_args_keys w n a "resume" Ha) as [r Hr]; [vm_compute; eauto |].
  exists r. split; [exact Hr |]. cbv zeta.
  pose proof (setup_run w n a Ha) as Hs. rewrite resume_block_run in Hs.
  destruct (res (resume_outcome w a n)) as [[[a' c] od]|e] eqn:Hrb.
  2: { apply prelude_of_setup_Raise. exact Hs. }
  rewrite <- resume_block_run in Hrb.
  destruct (registered_keys a') as (m & op & oph & bl0 & v & pf & iv & pt &
    Hm & Hop & Hoph & Hbl & Hv & Hpf & Hiv & Hpt).
  { intros k Hk. eapply resume_block_keys; [exact Hrb |].
    eapply cli_args_keys; eassumption. }
  assert (a' !! "resume" = Some r) as Hr'.
  { rewrite (resume_block_resume w a n a' c od Hrb). exact Hr. }
  exists m, op, oph, bl0, v, pf, iv, pt.
  do 9 (split; [assumption |]).
  cbn [fst] in Hs. rewrite (check_imputeronly_res a' n iv pt Hiv Hpt) in Hs.
  destruct (truthy iv && is_none pt).
  { apply prelude_of_setup_Raise. exact Hs. }
  pose proof (prelude_run w n _ a' c od m op oph bl0 v pf r
                Hs Hm Hop Hoph Hbl Hv Hpf Hr') as Hp.
  unfold prepend in Hp. rewrite validated_outcome_fresh in Hp. cbv zeta.
  destruct (res (validated_outcome w a' c od m op oph bl0 v r n));
    exact Hp.
Qed.

(** ** What a block can raise *)

Lemma ends_in_ret {A} Q (a : A) : ends_in Q (ret a).
Proof. intros n e. discriminate. Qed.

Lemma ends_in_raise {A} (Q : exn → bool) e : Q e = true → ends_in Q (@raise A e).
Proof. intros HQ n e' He. injection He as <-. exact HQ. Qed.

Lemma ends_in_bind {A B} Q (m : M A) (k : A → M B) :
  ends_in Q m → (∀ a, ends_in Q (k a)) → ends_in Q (bind m k).
Proof.
  intros Hm Hk n e. rewrite res_bind.
  destruct (res (m n)) as [a|e0] eqn:E; [apply Hk |].
  intros He. injection He as <-. exact (Hm n e0 E).
Qed.

Lemma ends_in_weaken {A} (Q Q' : exn → bool) (m : M A) :
  (∀ e, Q e = true → Q' e = true) → ends_in Q m → ends_in Q' m.
Proof. intros HQ Hm n e He. exact (HQ _ (Hm n e He)). Qed.

Lemma ends_in_emit Q e : ends_in Q (emit e).
Proof. intros n e'. discriminate. Qed.

Lemma ends_in_getattr Q (a : Namespace) name :
  is_Some (a !! name) → ends_in Q (getattr a name).
Proof.
  intros [v Hv] n e. rewrite (getattr_Some a name n v Hv). discriminate.
Qed.

Lemma ends_in_global Q name :
  bool_decide (name ∈ module_globals) || bool_decide (name ∈ builtins) = true →
  ends_in Q (global name).
Proof. intros Hb n e. unfold global. rewrite Hb. discriminate. Qed.

Lemma fmt_g_ends `{PyFormat} v : ends_in format_error (fmt_g v).
Proof.
  intros n e. unfold fmt_g. destruct (format_g v); [discriminate |].
  intros He. injection He as <-. destruct v; reflexivity.
Qed.

Lemma format_error_validation e :
  format_error e = true → validation_error e = true.
Proof. destruct e; (discriminate || reflexivity). Qed.

Ltac ends_step :=
  first
    [ apply ends_in_ret
    | apply ends_in_raise; reflexivity
    | apply ends_in_emit
    | apply ends_in_global; reflexivity
    | apply fmt_g_ends
    | apply (ends_in_weaken format_error); [exact format_error_validation |];
      apply fmt_g_ends
    | apply ends_in_bind; [| intros ?]
    | match goal with
      | |- ends_in _ (if ?b then _ else _) => destruct b
      end ].

Lemma choose_mask_str_ends `{PyFormat} m op oph bl :
  ends_in validation_error (choose_mask_str m op oph bl).
Proof. unfold choose_mask_str. repeat ends_step. Qed.

Lemma build_path_ends `{PyFormat} (w : World) (a : Namespace) ms :
  (∀ k, is_Some (defaults registered_actions !! k) → is_Some (a !! k)) →
  ends_in format_error (build_path w a ms).
Proof.
  intros Hk. unfold build_path, now_stamp.
  repeat first
    [ ends_step
    | apply ends_in_getattr, Hk; vm_compute; eauto ].
Qed.

Lemma validated_outcome_ends `{PyFormat} (w : World) a c od m op oph bl0 v
    r n e :
  (∀ k, is_Some (defaults registered_actions !! k) → is_Some (a !! k)) →
  res (validated_outcome w a c od m op oph bl0 v r n) = Raise e →
  validation_error e = true.
Proof.
  intros Hk. unfold validated_outcome.
  destruct (spec_hard_sigmoid v) as [hs|].
  2: { intros He. injection He as <-. reflexivity. }
  destruct (res (choose_mask_str m op oph _ n)) as [ms|e0] eqn:Hms.
  2: { intros He. injection He as <-.
       exact (choose_mask_str_ends _ _ _ _ _ _ Hms). }
  destruct (res (build_path w a ms n)) as [p|e0] eqn:Hp.
  2: { intros He. injection He as <-.
       exact (format_error_validation _ (build_path_ends w a ms Hk _ _ Hp)). }
  destruct (truthy r); discriminate.
Qed.

Lemma validated_outcome_Ok `{PyFormat} (w : World) a c od m op oph bl0 v
    r n l :
  res (validated_outcome w a c od m op oph bl0 v r n) = Ok l →
  let out := path_div (PathDiv (PathOf "results") "celeba") (path l) in
  args l = a ∧ checkpoint l = c ∧ mask l = m ∧
  output_dir l = (if truthy r then od else Some out) ∧
  events (validated_outcome w a c od m op oph bl0 v r n) =
    (if truthy r then [EvNow] else [EvNow; EvPrint (VPath out)]).
Proof.
  unfold validated_outcome.
  destruct (spec_hard_sigmoid v) as [hs|]; [| discriminate].
  destruct (res (choose_mask_str m op oph _ n)) as [ms|]; [| discriminate].
  destruct (res (build_path w a ms n)) as [p|]; [| discriminate].
  destruct (truthy r); cbn [res events]; intros Hl; injection Hl as <-;
    repeat split; reflexivity.
Qed.

Lemma validated_outcome_invalid `{PyFormat} (w : World) a c od m op oph bl0
    v r n :
  (∀ k, is_Some (defaults registered_actions !! k) → is_Some (a !! k)) →
  res (validated_outcome w a c od m op oph bl0 v r n)
    = Raise NotImplementedError →
  events (validated_outcome w a c od m op oph bl0 v r n) = [].
Proof.
  intros Hk. unfold validated_outcome.
  destruct (spec_hard_sigmoid v) as [hs|]; [| reflexivity].
  destruct (res (choose_mask_str m op oph _ n)) as [ms|e0]; [| reflexivity].
  destruct (res (build_path w a ms n)) as [p|e0] eqn:Hp.
  - destruct (truthy r); discriminate.
  - intros He. injection He as ->.
    discriminate (build_path_ends w a ms Hk _ _ Hp).
Qed.

Lemma resume_outcome_Raise `{PyFormat} (w : World) (a : Namespace) n r e :
  a !! "resume" = Some r →
  res (resume_outcome w a n) = Raise e →
  e = TypeError ∨ e = LoadError ∨ e = KeyError "args".
Proof.
  intros Hr. unfold resume_outcome. rewrite Hr.
  destruct (truthy r); [| discriminate].
  destruct (as_path r) as [dir|];
    [| intros He; injection He as <-; auto].
  destruct (files w (checkpoint_file dir)) as [ck|];
    [| intros He; injection He as <-; auto].
  destruct (ckpt_args ck); [discriminate |].
  intros He. injection He as <-. auto.
Qed.

Lemma resume_outcome_no_clock `{PyFormat} (w : World) (a : Namespace) n :
  EvNow ∉ events (resume_outcome w a n).
Proof.
  unfold resume_outcome.
  repeat match goal with
         | |- context [match ?x with _ => _ end] => destruct x
         end; cbn [events];
    repeat (apply not_elem_of_cons; split; [discriminate |]);
    apply not_elem_of_nil.
Qed.

Lemma parser_trace_no_clock : EvNow ∉ parser_trace.
Proof.
  intros Hin.
  pose proof (build_parser_alphabet 0%nat) as Hall.
  rewrite Forall_forall in Hall.
  specialize (Hall _ Hin). discriminate Hall.
Qed.

(** ** Every run of [main], case by case *)

Lemma cli_args_cases (w : World) n :
  cli_args w n =
  match cli w with
  | ParseExit code => Raise (SystemExit code)
  | ParseGiven given =>
      if accepts registered_actions given
      then Ok (given ∪ defaults registered_actions)
      else Raise (SystemExit 2)
  end.
Proof.
  pose proof (parse_args_run w n) as Hp. unfold parse_args in Hp.
  destruct (cli w) as [code|given].
  - injection Hp as <-. reflexivity.
  - destruct (accepts registered_actions given); injection Hp as <-;
      reflexivity.
Qed.

Lemma main_outcome `{PyFormat} (w : World) n :
  match cli_args w n with
  | Raise e =>
      main w n = MkOut (parser_trace ++ [EvParseArgs]) n (Raise e) ∧
      ∃ code, e = SystemExit code
  | Ok a =>
      ∃ r, a !! "resume" = Some r ∧
      let rb := resume_block w a n in
      let T := parser_trace ++ EvParseArgs :: events rb in
      match res rb with
      | Raise e =>
          main w n = MkOut T n (Raise e) ∧
          (e = TypeError ∨ e = LoadError ∨ e = KeyError "args")
      | Ok (a', c, od) =>
          (∀ k, is_Some (defaults registered_actions !! k) →
                is_Some (a' !! k)) ∧
          ∃ m op oph bl0 v iv pt,
            a' !! "mask" = Some m ∧ a' !! "obs_prob" = Some op ∧
            a' !! "obs_prob_high" = Some oph ∧ a' !! "block_len" = Some bl0 ∧
            a' !! "maskgen" = Some v ∧
            a' !! "imputeronly" = Some iv ∧ a' !! "pretrain" = Some pt ∧
            a' !! "resume" = Some r ∧
            if truthy iv && is_none pt
            then main w n = MkOut T n (Raise AssertionError)
            else
              let vo := validated_outcome w a' c od m op oph bl0 v r n in
              match res vo with
              | Raise e => main w n = MkOut (T ++ events vo) n (Raise e)
              | Ok l =>
                  prelude w n = MkOut (T ++ events vo) n (Ok l) ∧
                  main w n =
                    MkOut (T ++ events vo) n
                      (Raise (NameError (if eq_str m "indep"
                                         then "IndepMaskedCelebA"
                                         else "BlockMaskedCelebA")))
              end
      end
  end.
Proof.
  pose proof (prelude_outcome w n) as Hp.
  destruct (cli_args w n) as [a|e] eqn:Ha.
  2: { destruct Hp as [Hp Hcode]. split; [| exact Hcode].
       apply main_of_prelude_Raise. exact Hp. }
  destruct Hp as (r & Hr & Hp). exists r. split; [exact Hr |].
  cbv zeta in Hp |- *. rewrite resume_block_run.
  destruct (res (resume_outcome w a n)) as [[[a' c] od]|e] eqn:Hrb.
  2: { split; [apply main_of_prelude_Raise; exact Hp |].
       eapply resume_outcome_Raise; eassumption. }
  destruct Hp as (m & op & oph & bl0 & v & pf & iv & pt &
    Hm & Hop & Hoph & Hbl & Hv & Hpf & Hiv & Hpt & Hr' & Hp).
  split.
  { intros k Hk. eapply resume_block_keys;
      [rewrite resume_block_run; exact Hrb |].
    eapply cli_args_keys; eassumption. }
  exists m, op, oph, bl0, v, iv, pt. do 8 (split; [assumption |]).
  destruct (truthy iv && is_none pt).
  { apply main_of_prelude_Raise. exact Hp. }
  cbv zeta in Hp.
  destruct (res (validated_outcome w a' c od m op oph bl0 v r n))
    as [l|e] eqn:Hvo.
  2: { apply main_of_prelude_Raise. exact Hp. }
  split; [exact Hp |].
  destruct (validated_outcome_mask w a' c od m op oph bl0 v r n l Hvo)
    as [Hml Hmok].
  pose proof (main_of_prelude_Ok w n _ n l Hp) as Hmain.
  rewrite Hml in Hmain. exact (Hmain Hmok).
Qed.

Lemma validation_error_expected e :
  validation_error e = true → expected_end e = true.
Proof. destruct e; (discriminate || reflexivity). Qed.

Lemma created_quiet evs :
  Forall (λ e, within parser_event e ∨ within io_event e) evs →
  created evs = [].
Proof.
  induction 1 as [|e evs He _ IH]; [reflexivity |].
  unfold created in *. cbn [flat_map]. rewrite IH.
  destruct e; try reflexivity.
  destruct He as [He|He]; discriminate He.
Qed.

Lemma eq_str_block_not_indep v :
  eq_str v "block" = true → eq_str v "indep" = false.
Proof.
  destruct v as [|b|z|f|s|x y|p|o]; simpl; try discriminate.
  intros Hs. apply String.eqb_eq in Hs. subst s. reflexivity.
Qed.

Lemma main_Raise_inv `{PyFormat} (w : World) n e :
  res (main w n) = Raise e →
  (∀ name, e ≠ NameError name) →
  res (prelude w n) = Raise e.
Proof.
  intros Hm Hne. destruct (res (prelude w n)) as [l|e'] eqn:Hp.
  - destruct (prelude_then_NameError w n l Hp) as (name & _ & Hn & _).
    rewrite Hm in Hn. injection Hn as ->. destruct (Hne name eq_refl).
  - unfold main in Hm. rewrite (res_bind_Raise _ _ _ _ Hp) in Hm.
    congruence.
Qed.

Lemma validation_error_not_NameError e name :
  validation_error e = true → e ≠ NameError name.
Proof. intros He ->. discriminate He. Qed.

(** ** How a run ends *)

(** X4: however the command line, the disk and the clock are, [main] ends
    with an exception of one of nine kinds: the [SystemExit] of argparse,
    the [TypeError], load error or [KeyError: 'args'] of the resume block,
    the [AssertionError] of line 78, [NotImplementedError], the
    [ValueError], [OverflowError] or [TypeError] of a failed [:g] format, or
    the [NameError] of the dataset line.  It never ends with an
    [AttributeError] or an unbound local, and no run instantiates anything:
    neither a dataset nor a network. *)
Theorem main_ends_as_expected `{PyFormat} (w : World) n :
  ∃ e, res (main w n) = Raise e ∧ expected_end e = true ∧
       created (events (main w n)) = [].
Proof.
  enough (∃ e, res (main w n) = Raise e ∧ expected_end e = true)
    as (e & He & Hexp).
  { exists e. split; [exact He |]. split; [exact Hexp |].
    rewrite main_events. apply created_quiet, prelude_alphabet. }
  pose proof (main_outcome w n) as Hm.
  destruct (cli_args w n) as [a|e].
  2: { destruct Hm as (Hm & code & ->). exists (SystemExit code).
       rewrite Hm. auto. }
  destruct Hm as (r & Hr & Hm). cbv zeta in Hm.
  destruct (res (resume_block w a n)) as [[[a' c] od]|e].
  2: { destruct Hm as [Hm He]. exists e. rewrite Hm.
       split; [reflexivity |].
       destruct He as [-> | [-> | ->]]; reflexivity. }
  destruct Hm as (Hk & m & op & oph & bl0 & v & iv & pt & _ & _ & _ & _ & _ &
    _ & _ & _ & Hm).
  destruct (truthy iv && is_none pt).
  { exists AssertionError. rewrite Hm. auto. }
  cbv zeta in Hm.
  destruct (res (validated_outcome w a' c od m op oph bl0 v r n))
    as [l|e] eqn:Hvo.
  - destruct Hm as [_ Hm]. eexists. rewrite Hm.
    split; [reflexivity |].
    destruct (eq_str m "indep"); reflexivity.
  - exists e. rewrite Hm. split; [reflexivity |].
    apply validation_error_expected.
    eapply validated_outcome_ends; eassumption.
Qed.

(** X5: lines 77-78 look at the options as the resume block left them: a
    run ends with [AssertionError] exactly when [imputeronly] is set and
    [pretrain] is [None] there, whatever the other options say; and then it
    has done nothing after the resume block. *)
Theorem imputeronly_needs_pretrain `{PyFormat} (w : World) n a a' c od iv pt :
  cli_args w n = Ok a →
  res (resume_block w a n) = Ok (a', c, od) →
  a' !! "imputeronly" = Some iv →
  a' !! "pretrain" = Some pt →
  (res (main w n) = Raise AssertionError ↔
   truthy iv = true ∧ is_none pt = true) ∧
  (res (main w n) = Raise AssertionError →
   events (main w n) =
     parser_trace ++ EvParseArgs :: events (resume_block w a n)).
Proof.
  intros Ha Hrb Hiv Hpt. pose proof (main_outcome w n) as Hm.
  rewrite Ha in Hm. destruct Hm as (r & Hr & Hm). cbv zeta in Hm.
  rewrite Hrb in Hm.
  destruct Hm as (Hk & m & op & oph & bl0 & v & iv' & pt' & _ & _ & _ & _ &
    _ & Hiv' & Hpt' & _ & Hm).
  assert (iv' = iv) as -> by congruence.
  assert (pt' = pt) as -> by congruence.
  destruct (truthy iv && is_none pt) eqn:Hassert.
  { rewrite Hm. cbn [res events]. apply andb_true_iff in Hassert. tauto. }
  assert (res (main w n) ≠ Raise AssertionError) as Hne.
  { cbv zeta in Hm.
    destruct (res (validated_outcome w a' c od m op oph bl0 v r n))
      as [l|e] eqn:Hvo.
    - destruct Hm as [_ Hm]. rewrite Hm. discriminate.
    - rewrite Hm. cbn [res]. intros He. injection He as ->.
      discriminate (validated_outcome_ends _ _ _ _ _ _ _ _ _ _ _ _ Hk Hvo). }
  split; [| intros Hyes; contradiction].
  split; [intros Hyes; contradiction |].
  intros [Hi Hp]. rewrite Hi, Hp in Hassert. discriminate.
Qed.

(** X6: lines 83-85 replace a [block_len] of 0 by [None] in the local only:
    the local is never 0 afterwards, its truth value is that of the option,
    and with [mask = 'block'] the name of the mask is [block_varsize] for 0
    as for [None], and [block_<n>] otherwise. *)
Theorem block_len_zero_means_variable `{PyFormat} (w : World) n l bl0 :
  res (prelude w n) = Ok l →
  args l !! "block_len" = Some bl0 →
  block_len l = (if eq_zero bl0 then VNone else bl0) ∧
  eq_zero (block_len l) = false ∧
  truthy (block_len l) = truthy bl0 ∧
  (eq_str (mask l) "block" = true →
   mask_str l =
     "block_" +:+ (if truthy bl0 then py_str bl0 else "varsize")).
Proof.
  intros Hl Hbl0.
  destruct (prelude_Ok w n l Hl)
    as (od0 & bl0' & n1 & n2 & n3 & n4 & _ & _ & _ & _ & Hbl0' & Hbl & _ &
        Hms & _).
  assert (bl0' = bl0) as -> by congruence.
  assert (truthy (block_len l) = truthy bl0) as Ht.
  { rewrite Hbl. destruct (eq_zero bl0) eqn:Hz; [| reflexivity].
    rewrite (eq_zero_truthy _ Hz). reflexivity. }
  split; [exact Hbl |]. split; [| split; [exact Ht |]].
  - rewrite Hbl. destruct (eq_zero bl0) eqn:Hz; [reflexivity | exact Hz].
  - intros Hb. unfold choose_mask_str in Hms.
    rewrite (eq_str_block_not_indep _ Hb), Hb in Hms.
    cbn [ret res] in Hms. injection Hms as <-. rewrite Ht.
    destruct (truthy bl0) eqn:Htb; [| reflexivity].
    rewrite Hbl. destruct (eq_zero bl0) eqn:Hz; [| reflexivity].
    rewrite (eq_zero_truthy _ Hz) in Htb. discriminate.
Qed.

(** X7: a run that is not resumed and passes the validation keeps the
    parsed options as they are, loads nothing, reads the clock once, prints
    the output directory and stops at the dataset line; it does nothing
    else.  The directory printed is [Path('results') / 'celeba' / path]:
    [path] under [results/celeba], or [path] itself when it is absolute,
    which it is exactly when the prefix starts with [/]. *)
Theorem fresh_run_trace `{PyFormat} (w : World) n a r l :
  cli_args w n = Ok a →
  a !! "resume" = Some r →
  truthy r = false →
  res (prelude w n) = Ok l →
  let out := if is_absolute (path l) then PathOf (path l)
             else PathDiv (PathDiv (PathOf "results") "celeba") (path l) in
  args l = a ∧ checkpoint l = None ∧
  (∀ prefix, a !! "prefix" = Some prefix →
             is_absolute (path l) = is_absolute (py_str prefix)) ∧
  main w n =
    MkOut (parser_trace ++ [EvParseArgs; EvNow; EvPrint (VPath out)]) n
      (Raise (NameError (if eq_str (mask l) "indep"
                         then "IndepMaskedCelebA"
                         else "BlockMaskedCelebA"))).
Proof.
  intros Ha Hr Hfalse Hl. pose proof (main_outcome w n) as Hm.
  rewrite Ha in Hm. destruct Hm as (r' & Hr' & Hm).
  assert (r' = r) as -> by congruence. cbv zeta in Hm.
  rewrite resume_block_run in Hm. unfold resume_outcome in Hm.
  rewrite Hr, Hfalse in Hm. cbn [res events] in Hm.
  destruct Hm as (Hk & m & op & oph & bl0 & v & iv & pt & _ & _ & _ & _ & _ &
    _ & _ & _ & Hm).
  destruct (truthy iv && is_none pt).
  { exfalso. apply (f_equal res) in Hm. cbn [res] in Hm.
    apply main_Raise_inv in Hm; [congruence | discriminate]. }
  cbv zeta in Hm.
  destruct (res (validated_outcome w a None None m op oph bl0 v r n))
    as [l'|e] eqn:Hvo.
  2: { exfalso. apply (f_equal res) in Hm. cbn [res] in Hm.
       apply main_Raise_inv in Hm; [congruence |].
       intros name. apply validation_error_not_NameError.
       eapply validated_outcome_ends; eassumption. }
  destruct Hm as [Hp Hm].
  assert (l' = l) as -> by (rewrite Hp in Hl; cbn [res] in Hl; congruence).
  destruct (validated_outcome_Ok w a None None m op oph bl0 v r n l Hvo)
    as (Hargs & Hck & Hmask & _ & Hevs).
  rewrite Hfalse in Hevs. cbv zeta.
  split; [exact Hargs |]. split; [exact Hck |]. split.
  - intros prefix Hprefix.
    destruct (prelude_Ok w n l Hl)
      as (od0 & bl0' & n1 & n2 & n3 & n4 & _ & _ & _ & _ & _ & _ & _ & _ &
          Hpath & _).
    destruct (build_path_Ok w _ _ _ _ Hpath)
      as (prefix' & tau & maskgen & alpha & beta & gamma &
          Hprefix' & _ & _ & _ & _ & _ & Hname).
    rewrite Hargs in Hprefix'.
    assert (prefix' = prefix) as -> by congruence.
    rewrite Hname at 1. apply is_absolute_append.
  - rewrite Hm, Hevs, Hmask. reflexivity.
Qed.

(** X8: a resumed run that passes the validation writes where it was
    resumed from: [output_dir] is the directory given to [--resume], which
    the checkpoint cannot change, the line [Resume: ...] is all it prints,
    and the run name, though computed (the clock is read), names no
    directory. *)
Theorem resumed_run_trace `{PyFormat} (w : World) n a r l :
  cli_args w n = Ok a →
  a !! "resume" = Some r →
  truthy r = true →
  res (prelude w n) = Ok l →
  ∃ dir,
    as_path r = Some dir ∧ output_dir l = Some dir ∧
    args l !! "resume" = Some r ∧
    main w n =
      MkOut (parser_trace ++
               [EvParseArgs; EvPrint (VStr ("Resume: " +:+ py_str r));
                EvTorchLoad (checkpoint_file dir); EvNow]) n
        (Raise (NameError (if eq_str (mask l) "indep"
                           then "IndepMaskedCelebA"
                           else "BlockMaskedCelebA"))).
Proof.
  intros Ha Hr Htrue Hl. pose proof (main_outcome w n) as Hm.
  rewrite Ha in Hm. destruct Hm as (r' & Hr' & Hm).
  assert (r' = r) as -> by congruence. cbv zeta in Hm.
  rewrite resume_block_run in Hm. unfold resume_outcome in Hm.
  rewrite Hr, Htrue in Hm.
  assert (∀ evs e, main w n = MkOut evs n (Raise e) →
                   (∀ name, e ≠ NameError name) → False) as Hstop.
  { intros evs e He Hne. apply (f_equal res) in He. cbn [res] in He.
    apply main_Raise_inv in He; [congruence | exact Hne]. }
  destruct (as_path r) as [dir|].
  2: { destruct Hm as [Hm _]. destruct (Hstop _ _ Hm). discriminate. }
  destruct (files w (checkpoint_file dir)) as [ck|].
  2: { destruct Hm as [Hm _]. destruct (Hstop _ _ Hm). discriminate. }
  destruct (ckpt_args ck) as [saved|].
  2: { destruct Hm as [Hm _]. destruct (Hstop _ _ Hm). discriminate. }
  cbn [res events] in Hm.
  destruct Hm as (Hk & m & op & oph & bl0 & v & iv & pt & _ & _ & _ & _ & _ &
    _ & _ & Hres & Hm).
  destruct (truthy iv && is_none pt).
  { destruct (Hstop _ _ Hm). discriminate. }
  cbv zeta in Hm.
  destruct (res (validated_outcome w (apply_saved_args saved a) (Some ck)
                   (Some dir) m op oph bl0 v r n)) as [l'|e] eqn:Hvo.
  2: { destruct (Hstop _ _ Hm). intros name.
       apply validation_error_not_NameError.
       eapply validated_outcome_ends; eassumption. }
  destruct Hm as [Hp Hm]. rewrite Hp in Hl. cbn [res] in Hl.
  injection Hl as ->.
  destruct (validated_outcome_Ok _ _ _ _ _ _ _ _ _ _ _ _ Hvo)
    as (Hargs & Hck & Hmask & Hod & Hevs).
  rewrite Htrue in Hod, Hevs.
  exists dir. split; [reflexivity |]. split; [exact Hod |].
  split; [rewrite Hargs; exact Hres |].
  rewrite Hm, Hevs, Hmask, <- app_assoc. reflexivity.
Qed.

(** X9: a run that ends with [NotImplementedError] has done nothing after
    the resume block: the run name is not computed, so the clock is not
    read, and no output directory is printed. *)
Theorem invalid_option_stops_before_clock `{PyFormat} (w : World) n a :
  cli_args w n = Ok a →
  res (main w n) = Raise NotImplementedError →
  events (main w n) =
    parser_trace ++ EvParseArgs :: events (resume_block w a n) ∧
  EvNow ∉ events (main w n).
Proof.
  intros Ha Hnie.
  assert (events (main w n) =
            parser_trace ++ EvParseArgs :: events (resume_block w a n))
    as Hevs.
  { pose proof (main_outcome w n) as Hm.
    rewrite Ha in Hm. destruct Hm as (r & Hr & Hm). cbv zeta in Hm.
    destruct (res (resume_block w a n)) as [[[a' c] od]|e].
    2: { destruct Hm as [Hm _]. rewrite Hm. reflexivity. }
    destruct Hm as (Hk & m & op & oph & bl0 & v & iv & pt & _ & _ & _ & _ &
      _ & _ & _ & _ & Hm).
    destruct (truthy iv && is_none pt); [rewrite Hm; reflexivity |].
    cbv zeta in Hm.
    destruct (res (validated_outcome w a' c od m op oph bl0 v r n))
      as [l|e] eqn:Hvo.
    - destruct Hm as [_ Hm]. rewrite Hm in Hnie. discriminate.
    - rewrite Hm in Hnie |- *. cbn [res events] in *.
      injection Hnie as ->.
      rewrite (validated_outcome_invalid _ _ _ _ _ _ _ _ _ _ _ Hk Hvo).
      apply app_nil_r. }
  split; [exact Hevs |]. rewrite Hevs.
  apply not_elem_of_app. split; [apply parser_trace_no_clock |].
  apply not_elem_of_cons. split; [discriminate |].
  rewrite resume_block_run. apply resume_outcome_no_clock.
Qed.

Lemma main_after_resume `{PyFormat} (w : World) n a a' c od :
  cli_args w n = Ok a →
  res (resume_block w a n) = Ok (a', c, od) →
  ∃ e, res (main w n) = Raise e ∧
       (e = AssertionError ∨ validation_error e = true ∨
        ∃ name, e = NameError name).
Proof.
  intros Ha Hrb. pose proof (main_outcome w n) as Hm.
  rewrite Ha in Hm. destruct Hm as (r & Hr & Hm). cbv zeta in Hm.
  rewrite Hrb in Hm.
  destruct Hm as (Hk & m & op & oph & bl0 & v & iv & pt & _ & _ & _ & _ &
    _ & _ & _ & _ & Hm).
  destruct (truthy iv && is_none pt).
  { exists AssertionError. rewrite Hm. auto. }
  cbv zeta in Hm.
  destruct (res (validated_outcome w a' c od m op oph bl0 v r n))
    as [l|e] eqn:Hvo.
  - destruct Hm as [_ Hm]. eexists. rewrite Hm. split; [reflexivity |].
    right. right. eauto.
  - exists e. rewrite Hm. split; [reflexivity |]. right. left.
    eapply validated_outcome_ends; eassumption.
Qed.

(** X10: [SystemExit] comes from line 64 alone: a run ends with it exactly
    when argparse leaves, with the status argparse chose (2 for an option
    that is not registered or not of the registered type), and such a run
    has only built the parser and called [parse_args]: it prints nothing
    and loads nothing. *)
Theorem system_exit_comes_from_argparse `{PyFormat} (w : World) n code :
  (res (main w n) = Raise (SystemExit code) ↔
   cli w = ParseExit code ∨
   ∃ given, cli w = ParseGiven given ∧
            accepts registered_actions given = false ∧ code = 2) ∧
  (res (main w n) = Raise (SystemExit code) →
   main w n =
     MkOut (parser_trace ++ [EvParseArgs]) n (Raise (SystemExit code))).
Proof.
  assert (res (main w n) = Raise (SystemExit code) →
          cli_args w n = Raise (SystemExit code) ∧
          main w n =
            MkOut (parser_trace ++ [EvParseArgs]) n
              (Raise (SystemExit code))) as Hback.
  { intros Hexit. pose proof (main_outcome w n) as Hm.
    destruct (cli_args w n) as [a|e] eqn:Ha.
    - exfalso. destruct Hm as (r & Hr & Hm). cbv zeta in Hm.
      destruct (res (resume_block w a n)) as [[[a' c] od]|e] eqn:Hrb.
      + destruct (main_after_resume w n a a' c od Ha Hrb)
          as (e & He & Hcase).
        rewrite Hexit in He. injection He as <-.
        destruct Hcase as [Hc | [Hc | [name Hc]]]; discriminate Hc.
      + destruct Hm as [Hm He]. rewrite Hm in Hexit. cbn [res] in Hexit.
        injection Hexit as ->.
        destruct He as [He | [He | He]]; discriminate He.
    - destruct Hm as [Hm _]. rewrite Hm in Hexit. cbn [res] in Hexit.
      injection Hexit as ->. split; [reflexivity | exact Hm]. }
  split; [| intros Hexit; apply Hback, Hexit].
  split.
  - intros Hexit. destruct (Hback Hexit) as [Ha _].
    rewrite cli_args_cases in Ha. destruct (cli w) as [code'|given].
    + left. congruence.
    + right. exists given.
      destruct (accepts registered_actions given); [discriminate |].
      injection Ha as <-. auto.
  - intros Hcli. pose proof (main_outcome w n) as Hm.
    rewrite cli_args_cases in Hm.
    destruct Hcli as [Hcli | (given & Hcli & Hno & ->)]; rewrite Hcli in Hm.
    + destruct Hm as [Hm _]. rewrite Hm. reflexivity.
    + rewrite Hno in Hm. destruct Hm as [Hm _]. rewrite Hm. reflexivity.
Qed.

(** X11: the two ways the load of line 71 fails.  A resumed run ends with
    the load error exactly when [<dir>/log/checkpoint.pth] does not exist,
    and with [KeyError: 'args'] exactly when the file holds no ['args'];
    either way the line [Resume: ...] has been printed, the file has been
    asked for, and nothing else has happened. *)
Theorem resume_failures `{PyFormat} (w : World) n a r dir :
  cli_args w n = Ok a →
  a !! "resume" = Some r →
  truthy r = true →
  as_path r = Some dir →
  (res (main w n) = Raise LoadError ↔
   files w (checkpoint_file dir) = None) ∧
  (res (main w n) = Raise (KeyError "args") ↔
   ∃ ck, files w (checkpoint_file dir) = Some ck ∧ ckpt_args ck = None) ∧
  (res (main w n) = Raise LoadError ∨
   res (main w n) = Raise (KeyError "args") →
   events (main w n) =
     parser_trace ++
       [EvParseArgs; EvPrint (VStr ("Resume: " +:+ py_str r));
        EvTorchLoad (checkpoint_file dir)]).
Proof.
  intros Ha Hr Htrue Hdir. pose proof (main_outcome w n) as Hm.
  rewrite Ha in Hm. destruct Hm as (r' & Hr' & Hm).
  assert (r' = r) as -> by congruence. cbv zeta in Hm.
  destruct (res (resume_block w a n)) as [[[a' c] od]|e] eqn:Hrb.
  - destruct (main_after_resume w n a a' c od Ha Hrb) as (e & He & Hcase).
    assert (e ≠ LoadError ∧ e ≠ KeyError "args") as [Hn1 Hn2].
    { destruct Hcase as [-> | [Hc | [name ->]]];
        split; try discriminate; intros ->; discriminate Hc. }
    rewrite resume_block_run in Hrb. unfold resume_outcome in Hrb.
    rewrite Hr, Htrue, Hdir in Hrb.
    destruct (files w (checkpoint_file dir)) as [ck|]; [| discriminate].
    destruct (ckpt_args ck) as [saved|] eqn:Hsaved; [| discriminate].
    rewrite He. split; [| split].
    + split; [congruence | discriminate].
    + split; [congruence |].
      intros (ck' & Hck' & Hnone). congruence.
    + intros [Hbad | Hbad]; congruence.
  - destruct Hm as [Hm _]. rewrite Hm. cbn [res events].
    rewrite resume_block_run in Hrb |- *. unfold resume_outcome in Hrb |- *.
    rewrite Hr, Htrue, Hdir in Hrb |- *.
    destruct (files w (checkpoint_file dir)) as [ck|].
    + destruct (ckpt_args ck) as [saved|] eqn:Hsaved; [discriminate |].
      cbn [res events] in *. injection Hrb as <-.
      split; [| split].
      * split; discriminate.
      * split; [eauto | reflexivity].
      * intros _. reflexivity.
    + cbn [res events] in *. injection Hrb as <-.
      split; [| split].
      * split; reflexivity.
      * split; [discriminate |]. intros (ck & Hck & _). discriminate.
      * intros _. reflexivity.
Qed.

(** ** The attributes of the parsed options *)

Lemma accepts_registered (parser : list Action) (given : Namespace) k :
  accepts parser given = true →
  is_Some (given !! k) →
  k ∈ map dest parser.
Proof.
  intros Hacc [v Hv]. unfold accepts in Hacc.
  rewrite forallb_forall in Hacc.
  assert (In (k, v) (map_to_list given)) as Hin.
  { apply list_elem_of_In, elem_of_map_to_list. exact Hv. }
  specialize (Hacc _ Hin). cbn [fst snd] in Hacc.
  apply existsb_exists in Hacc. destruct Hacc as (x & Hx & Hok).
  apply andb_true_iff in Hok. destruct Hok as [Hd _].
  apply String.eqb_eq in Hd. subst k.
  apply list_elem_of_In, in_map, Hx.
Qed.

Lemma dom_defaults (parser : list Action) :
  dom (defaults parser) =@{gset string} list_to_set (map dest parser).
Proof.
  unfold defaults. rewrite dom_list_to_map_L.
  f_equal. rewrite map_map. reflexivity.
Qed.

Lemma registered_dests_NoDup : NoDup (map dest registered_actions).
Proof. apply (bool_decide_unpack _). vm_compute. exact I. Qed.

(** X12: the 22 options of lines 27-62 have 22 different destinations, and
    the namespace [parse_args] returns has exactly these 22 attributes,
    whatever the command line holds: an option that is given replaces a
    default, it never adds an attribute. *)
Theorem parsed_args_attributes (w : World) n a :
  cli_args w n = Ok a →
  NoDup (map dest registered_actions) ∧
  dom a =@{gset string} list_to_set (map dest registered_actions) ∧
  size (dom a) = 22%nat.
Proof.
  intros Ha.
  assert (dom a =@{gset string} list_to_set (map dest registered_actions))
    as Hdom.
  { rewrite cli_args_cases in Ha. destruct (cli w) as [code|given];
      [discriminate |].
    destruct (accepts registered_actions given) eqn:Hacc; [| discriminate].
    injection Ha as <-. rewrite dom_union_L, dom_defaults.
    apply subseteq_union_1_L. intros k Hk.
    apply elem_of_list_to_set. apply elem_of_dom in Hk.
    eapply accepts_registered; eassumption. }
  split; [apply registered_dests_NoDup |]. split; [exact Hdom |].
  rewrite Hdom, (size_list_to_set _ registered_dests_NoDup).
  reflexivity.
Qed.

(** ** The properties at work on sample runs *)

(** [--imputeronly --maskgen foo]: the assertion of line 78 fails before the
    unknown [maskgen] is looked at. *)
Lemma imputeronly_needs_pretrain_witness :
  cli_args imputeronly_world 0%nat = Ok (parsed_args imputeronly_world) ∧
  parsed_args imputeronly_world !! "imputeronly" = Some (VBool true) ∧
  parsed_args imputeronly_world !! "pretrain" = Some VNone ∧
  res (@main sample_format imputeronly_world 0%nat) = Raise AssertionError.
Proof.
  assert (cli_args imputeronly_world 0%nat
          = Ok (parsed_args imputeronly_world))
    as Ha by (apply cli_args_parsed; vm_compute; reflexivity).
  assert (parsed_args imputeronly_world !! "resume" = Some VNone)
    as Hr by (vm_compute; reflexivity).
  assert (parsed_args imputeronly_world !! "imputeronly" = Some (VBool true))
    as Hiv by (vm_compute; reflexivity).
  assert (parsed_args imputeronly_world !! "pretrain" = Some VNone)
    as Hpt by (vm_compute; reflexivity).
  assert (res (@resume_block sample_format imputeronly_world
                 (parsed_args imputeronly_world) 0%nat)
          = Ok (parsed_args imputeronly_world, None, None)) as Hrb.
  { rewrite resume_block_run. unfold resume_outcome. rewrite Hr.
    reflexivity. }
  split; [exact Ha |]. split; [exact Hiv |]. split; [exact Hpt |].
  destruct (@imputeronly_needs_pretrain sample_format imputeronly_world
              0%nat _ _ _ _ _ _ Ha Hrb Hiv Hpt) as [Hiff _].
  apply Hiff. split; reflexivity.
Defined.

(** [--block-len 0]: the local is [None] and the mask is called
    [block_varsize]. *)
Lemma block_len_zero_witness :
  match res (@prelude sample_format varsize_world 0%nat) with
  | Ok l =>
      args l !! "block_len" = Some (VInt 0) ∧
      block_len l = VNone ∧ mask_str l = "block_varsize"
  | Raise _ => False
  end.
Proof.
  assert (match res (@prelude sample_format varsize_world 0%nat) with
          | Ok l =>
              args l !! "block_len" = Some (VInt 0) ∧
              eq_str (mask l) "block" = true
          | Raise _ => False
          end) as F by (vm_compute; split; reflexivity).
  pose proof (@block_len_zero_means_variable sample_format varsize_world
                0%nat) as T.
  destruct (res (@prelude sample_format varsize_world 0%nat)) as [l|e];
    [| exact F].
  destruct F as [Hbl Hb].
  destruct (T l (VInt 0) eq_refl Hbl) as (Hlocal & _ & _ & Hname).
  split; [exact Hbl |]. split; [exact Hlocal | exact (Hname Hb)].
Defined.

(** The default run: parser, [parse_args], the clock, the output directory
    under [results/celeba], and the [NameError]. *)
Lemma fresh_run_witness :
  match res (@prelude sample_format default_world 0%nat) with
  | Ok l =>
      args l = parsed_args default_world ∧
      events (@main sample_format default_world 0%nat) =
        parser_trace ++
          [EvParseArgs; EvNow;
           EvPrint (VPath (PathDiv (PathDiv (PathOf "results") "celeba")
                             (path l)))]
  | Raise _ => False
  end.
Proof.
  assert (cli_args default_world 0%nat = Ok (parsed_args default_world))
    as Ha by (apply cli_args_parsed; vm_compute; reflexivity).
  assert (parsed_args default_world !! "resume" = Some VNone)
    as Hr by (vm_compute; reflexivity).
  assert (parsed_args default_world !! "prefix" = Some (VStr "impute"))
    as Hpf by (vm_compute; reflexivity).
  assert (is_ok (res (@prelude sample_format default_world 0%nat)) = true)
    as F by (vm_compute; reflexivity).
  pose proof (@fresh_run_trace sample_format default_world 0%nat
                (parsed_args default_world) VNone) as T.
  destruct (res (@prelude sample_format default_world 0%nat)) as [l|e];
    [| discriminate F].
  destruct (T l Ha Hr eq_refl eq_refl) as (Hargs & _ & Habs & Hmain).
  split; [exact Hargs |]. rewrite Hmain.
  rewrite (Habs _ Hpf). reflexivity.
Defined.

(** Resumed from [runs/old], the run writes to [runs/old]. *)
Lemma resumed_run_witness :
  match res (@prelude sample_format resume_world 0%nat) with
  | Ok l =>
      output_dir l = Some (PathOf "runs/old") ∧
      args l !! "resume" = Some (VStr "runs/old")
  | Raise _ => False
  end.
Proof.
  assert (cli_args resume_world 0%nat = Ok (parsed_args resume_world))
    as Ha by (apply cli_args_parsed; vm_compute; reflexivity).
  assert (parsed_args resume_world !! "resume" = Some (VStr "runs/old"))
    as Hr by (vm_compute; reflexivity).
  assert (is_ok (res (@prelude sample_format resume_world 0%nat)) = true)
    as F by (vm_compute; reflexivity).
  pose proof (@resumed_run_trace sample_format resume_world 0%nat
                (parsed_args resume_world) (VStr "runs/old")) as T.
  destruct (res (@prelude sample_format resume_world 0%nat)) as [l|e];
    [| discriminate F].
  destruct (T l Ha Hr eq_refl eq_refl) as (dir & Hdir & Hod & Hres & _).
  injection Hdir as <-. split; [exact Hod | exact Hres].
Defined.

(** [--maskgen foo] stops before the clock is read. *)
Lemma invalid_option_witness :
  res (@main sample_format unknown_maskgen_world 0%nat)
    = Raise NotImplementedError ∧
  events (@main sample_format unknown_maskgen_world 0%nat) =
    parser_trace ++ [EvParseArgs] ∧
  EvNow ∉ events (@main sample_format unknown_maskgen_world 0%nat).
Proof.
  assert (cli_args unknown_maskgen_world 0%nat
          = Ok (parsed_args unknown_maskgen_world))
    as Ha by (apply cli_args_parsed; vm_compute; reflexivity).
  assert (parsed_args unknown_maskgen_world !! "resume" = Some VNone)
    as Hr by (vm_compute; reflexivity).
  assert (res (@main sample_format unknown_maskgen_world 0%nat)
          = Raise NotImplementedError) as Hnie by (vm_compute; reflexivity).
  destruct (@invalid_option_stops_before_clock sample_format
              unknown_maskgen_world 0%nat _ Ha Hnie) as [Hevs Hclock].
  split; [exact Hnie |]. split; [| exact Hclock].
  rewrite Hevs, resume_block_run. unfold resume_outcome. rewrite Hr.
  reflexivity.
Defined.

(** [--help] ends the run at line 64 with status 0. *)
Lemma system_exit_witness :
  @main sample_format help_world 0%nat =
    MkOut (parser_trace ++ [EvParseArgs]) 0%nat (Raise (SystemExit 0)).
Proof.
  destruct (@system_exit_comes_from_argparse sample_format help_world
              0%nat 0) as [Hiff Hrun].
  apply Hrun, Hiff. left. reflexivity.
Defined.

(** [--resume runs/old] with nothing on the disk. *)
Lemma resume_failures_witness :
  files missing_checkpoint_world (checkpoint_file (PathOf "runs/old"))
    = None ∧
  res (@main sample_format missing_checkpoint_world 0%nat)
    = Raise LoadError ∧
  events (@main sample_format missing_checkpoint_world 0%nat) =
    parser_trace ++
      [EvParseArgs; EvPrint (VStr "Resume: runs/old");
       EvTorchLoad (checkpoint_file (PathOf "runs/old"))].
Proof.
  assert (cli_args missing_checkpoint_world 0%nat
          = Ok (parsed_args missing_checkpoint_world))
    as Ha by (apply cli_args_parsed; vm_compute; reflexivity).
  assert (parsed_args missing_checkpoint_world !! "resume"
          = Some (VStr "runs/old"))
    as Hr by (vm_compute; reflexivity).
  destruct (@resume_failures sample_format missing_checkpoint_world 0%nat
              _ _ (PathOf "runs/old") Ha Hr eq_refl eq_refl)
    as (Hload & _ & Hevs).
  assert (res (@main sample_format missing_checkpoint_world 0%nat)
          = Raise LoadError) as Hmain by (apply Hload; reflexivity).
  split; [reflexivity |]. split; [exact Hmain |].
  apply Hevs. left. exact Hmain.
Defined.

(** The default command line gives the 22 attributes. *)
Lemma parsed_args_attributes_witness :
  size (dom (parsed_args default_world)) = 22%nat.
Proof.
  assert (cli_args default_world 0%nat = Ok (parsed_args default_world))
    as Ha by (apply cli_args_parsed; vm_compute; reflexivity).
  destruct (parsed_args_attributes default_world 0%nat _ Ha)
    as (_ & _ & Hsize).
  exact Hsize.
Defined.
